(** * TaskWise: the task store and the CRUD service

    A shallow embedding of
      - [task.model.ts]                    (the [Task] interface),
      - [application-task-state.service.ts] (the [BehaviorSubject] holding
        the list),
      - [task-crud-operations.service.ts]   (load / create / update / delete
        and the two private persistence helpers),
    followed by the properties of the service.

    Conventions.  A JavaScript string is a [string]: a sequence of code
    units, here the code units below 256.  The promise returned by an
    [async] method is its settled state, [Settled].  The effects of a
    method are the new [World]: the value held by [tasks$], the
    [window.localStorage] of the execution context, and the chronological
    list of observable [Event]s.  [Date.now()] and
    [Math.random().toString(36)] are read from the environment, so the
    method that uses them takes their values as arguments. *)

From Stdlib Require Import String Ascii List ZArith NArith Bool Lia.
From Stdlib Require Import DecimalString DecimalPos DecimalZ.
From stdpp Require Import base option list strings gmap.

Import ListNotations.
Local Open Scope string_scope.
Local Open Scope list_scope.

(* ===================================================================== *)
(** ** task.model.ts *)

Record Task : Type := mkTask
  { id : string;
    title : string;
    isComplete : bool }.

(* ===================================================================== *)
(** ** Strings of the platform *)

(** Code unit 0x22, the double quote. *)
Definition dquote : ascii := "034"%char.

(** [a === b] on strings. *)
Definition str_eq (a b : string) : bool := String.eqb a b.

(** The code units below 256 that [String.prototype.trim] strips: TAB,
    LF, VT, FF, CR, SP and NBSP.  It also strips U+1680, U+2000 to
    U+200A, U+2028, U+2029, U+202F, U+205F, U+3000 and U+FEFF, which are
    not code units of the strings here: what is proved about trimming is
    proved for the titles below U+0100. *)
Definition is_white_space (c : ascii) : bool :=
  match N_of_ascii c with
  | 9%N | 10%N | 11%N | 12%N | 13%N | 32%N | 160%N => true
  | _ => false
  end.

Fixpoint trimStart (s : string) : string :=
  match s with
  | EmptyString => EmptyString
  | String c s' => if is_white_space c then trimStart s' else s
  end.

Fixpoint trimEnd (s : string) : string :=
  match s with
  | EmptyString => EmptyString
  | String c s' =>
      match trimEnd s' with
      | EmptyString => if is_white_space c then EmptyString else String c EmptyString
      | r => String c r
      end
  end.

(** [s.trim()] *)
Definition trim (s : string) : string := trimEnd (trimStart s).

(** [s.substring(a, b)] for [a <= b]: the code units at indexes [a .. b-1],
    clipped to the length of [s]. *)
Definition js_substring (a b : nat) (s : string) : string :=
  String.substring a (b - a) s.

(** The decimal rendering of an integer-valued number in a template
    literal. *)
Definition number_to_string (z : Z) : string :=
  NilZero.string_of_int (Z.to_int z).

(* ===================================================================== *)
(** ** JSON.stringify and JSON.parse at the type [Task[]] *)

Module JSON.

Definition hex_digit (n : N) : ascii :=
  if (n <? 10)%N then ascii_of_N (48 + n) else ascii_of_N (87 + n).

(** QuoteJSONString, one code unit. *)
Definition quote_char (c : ascii) : string :=
  let n := N_of_ascii c in
  if (n =? 34)%N then String "\" (String dquote EmptyString)
  else if (n =? 92)%N then "\\"
  else if (n =? 8)%N then "\b"
  else if (n =? 12)%N then "\f"
  else if (n =? 10)%N then "\n"
  else if (n =? 13)%N then "\r"
  else if (n =? 9)%N then "\t"
  else if (n <? 32)%N then
    "\u00" +:+ String (hex_digit (n / 16)) (String (hex_digit (n mod 16)) EmptyString)
  else String c EmptyString.

Fixpoint quote_body (s : string) : string :=
  match s with
  | EmptyString => EmptyString
  | String c s' => quote_char c +:+ quote_body s'
  end.

Definition quote (s : string) : string :=
  String dquote (quote_body s +:+ String dquote EmptyString).

Definition stringify_bool (b : bool) : string :=
  if b then "true" else "false".

(** An object with the own properties [id], [title], [isComplete], in
    that order: the order of the literal in [createNewTask], which the
    spread in [updateTaskStatus] keeps. *)
Definition stringify_task (t : Task) : string :=
  "{" +:+ quote "id" +:+ ":" +:+ quote (id t) +:+
  "," +:+ quote "title" +:+ ":" +:+ quote (title t) +:+
  "," +:+ quote "isComplete" +:+ ":" +:+ stringify_bool (isComplete t) +:+ "}".

Fixpoint stringify_elements (l : list Task) : string :=
  match l with
  | [] => EmptyString
  | [t] => stringify_task t
  | t :: l' => stringify_task t +:+ "," +:+ stringify_elements l'
  end.

(** [JSON.stringify(tasks)] *)
Definition stringify (l : list Task) : string :=
  "[" +:+ stringify_elements l +:+ "]".

(** The text of an array after its first element: the further
    elements, each behind its comma, and the closing bracket. *)
Fixpoint stringify_tail (l : list Task) : string :=
  match l with
  | [] => "]"
  | t :: l' => "," +:+ stringify_task t +:+ stringify_tail l'
  end.

(** *** Decoding *)

(** JSON insignificant whitespace: TAB, LF, CR, SP. *)
Definition is_json_ws (c : ascii) : bool :=
  match N_of_ascii c with
  | 9%N | 10%N | 13%N | 32%N => true
  | _ => false
  end.

Fixpoint skip_ws (s : string) : string :=
  match s with
  | EmptyString => EmptyString
  | String c s' => if is_json_ws c then skip_ws s' else s
  end.

(** [expect lit s]: the input after the token [lit], if [s] starts
    with it. *)
Fixpoint expect (lit s : string) : option string :=
  match lit with
  | EmptyString => Some s
  | String c lit' =>
      match s with
      | EmptyString => None
      | String d s' => if Ascii.eqb c d then expect lit' s' else None
      end
  end.

Definition token (lit s : string) : option string := expect lit (skip_ws s).

Definition hex_value (c : ascii) : option N :=
  let n := N_of_ascii c in
  if (48 <=? n)%N && (n <=? 57)%N then Some (n - 48)%N
  else if (97 <=? n)%N && (n <=? 102)%N then Some (n - 87)%N
  else if (65 <=? n)%N && (n <=? 70)%N then Some (n - 55)%N
  else None.

(** The code unit of [\uXXXX]; [None] when a digit is not hexadecimal
    or the code unit is not below 256. *)
Definition unicode_escape (a b c d : ascii) : option ascii :=
  match hex_value a, hex_value b, hex_value c, hex_value d with
  | Some x1, Some x2, Some x3, Some x4 =>
      if (x1 =? 0)%N && (x2 =? 0)%N then Some (ascii_of_N (16 * x3 + x4)) else None
  | _, _, _, _ => None
  end.

Definition simple_escape (e : ascii) : option ascii :=
  match N_of_ascii e with
  | 34%N => Some dquote
  | 92%N => Some "\"%char
  | 47%N => Some "/"%char
  | 98%N => Some "008"%char
  | 102%N => Some "012"%char
  | 110%N => Some "010"%char
  | 114%N => Some "013"%char
  | 116%N => Some "009"%char
  | _ => None
  end.

Definition cons_char (c : ascii) (r : option (string * string)) : option (string * string) :=
  match r with
  | Some (v, rest) => Some (String c v, rest)
  | None => None
  end.

(** The characters of a JSON string after its opening quote: the value
    and the input after the closing quote. *)
Fixpoint string_chars (s : string) : option (string * string) :=
  match s with
  | EmptyString => None
  | String c s' =>
      if (N_of_ascii c =? 34)%N then Some (EmptyString, s')
      else if (N_of_ascii c =? 92)%N then
        match s' with
        | EmptyString => None
        | String e s'' =>
            if (N_of_ascii e =? 117)%N then
              match s'' with
              | String h1 (String h2 (String h3 (String h4 s3))) =>
                  match unicode_escape h1 h2 h3 h4 with
                  | Some u => cons_char u (string_chars s3)
                  | None => None
                  end
              | _ => None
              end
            else
              match simple_escape e with
              | Some u => cons_char u (string_chars s'')
              | None => None
              end
        end
      else if (N_of_ascii c <? 32)%N then None
      else cons_char c (string_chars s')
  end.

Definition parse_string (s : string) : option (string * string) :=
  match skip_ws s with
  | String c s' => if (N_of_ascii c =? 34)%N then string_chars s' else None
  | EmptyString => None
  end.

Definition parse_bool (s : string) : option (bool * string) :=
  match token "true" s with
  | Some rest => Some (true, rest)
  | None =>
      match token "false" s with
      | Some rest => Some (false, rest)
      | None => None
      end
  end.

(** A member [name : value]; the name is compared after decoding. *)
Definition member_name (name s : string) : option string :=
  match parse_string s with
  | Some (k, rest) => if str_eq k name then token ":" rest else None
  | None => None
  end.

Definition parse_task (s : string) : option (Task * string) :=
  s1 ← token "{" s;
  s2 ← member_name "id" s1;
  '(i, s3) ← parse_string s2;
  s4 ← token "," s3;
  s5 ← member_name "title" s4;
  '(t, s6) ← parse_string s5;
  s7 ← token "," s6;
  s8 ← member_name "isComplete" s7;
  '(b, s9) ← parse_bool s8;
  s10 ← token "}" s9;
  Some (mkTask i t b, s10).

(** The elements after the first one, up to the closing bracket and the
    end of the text.  [fuel] bounds the number of elements. *)
Fixpoint parse_more (fuel : nat) (s : string) : option (list Task) :=
  match fuel with
  | O => None
  | S fuel' =>
      match token "]" s with
      | Some rest =>
          match skip_ws rest with
          | EmptyString => Some []
          | String _ _ => None
          end
      | None =>
          s1 ← token "," s;
          '(t, s2) ← parse_task s1;
          l ← parse_more fuel' s2;
          Some (t :: l)
      end
  end.

(** The array of tasks that a text denotes, when it is one as
    [stringify] writes them: objects whose members are [id], [title],
    [isComplete] in this order, with any insignificant whitespace and
    any string escape that denotes a code unit below 256. *)
Definition parse_tasks (text : string) : option (list Task) :=
  s1 ← token "[" text;
  match token "]" s1 with
  | Some rest =>
      match skip_ws rest with
      | EmptyString => Some []
      | String _ _ => None
      end
  | None =>
      '(t, s2) ← parse_task s1;
      l ← parse_more (S (String.length s2)) s2;
      Some (t :: l)
  end.

(** *** The JSON grammar *)

Definition is_digit (c : ascii) : bool :=
  let n := N_of_ascii c in (48 <=? n)%N && (n <=? 57)%N.

Fixpoint digits (s : string) : string :=
  match s with
  | EmptyString => EmptyString
  | String c s' => if is_digit c then digits s' else s
  end.

(** One digit or more. *)
Definition digits1 (s : string) : option string :=
  match s with
  | EmptyString => None
  | String c s' => if is_digit c then Some (digits s') else None
  end.

(** A number: an optional minus sign, then [0] or a digit from 1 to 9
    followed by digits, then an optional fraction (a dot and at least one
    digit), then an optional exponent ([e] or [E], an optional sign, at
    least one digit).  The input after it. *)
Definition number (s : string) : option string :=
  let s1 :=
    match s with
    | String c s' => if (N_of_ascii c =? 45)%N then s' else s
    | EmptyString => s
    end in
  s2 ← match s1 with
       | EmptyString => None
       | String c s' =>
           if (N_of_ascii c =? 48)%N then Some s'
           else if is_digit c then Some (digits s')
           else None
       end;
  s3 ← match s2 with
       | String c s' => if (N_of_ascii c =? 46)%N then digits1 s' else Some s2
       | EmptyString => Some s2
       end;
  match s3 with
  | EmptyString => Some s3
  | String c s' =>
      if (N_of_ascii c =? 101)%N || (N_of_ascii c =? 69)%N then
        match s' with
        | EmptyString => None
        | String d s'' =>
            if (N_of_ascii d =? 43)%N || (N_of_ascii d =? 45)%N then digits1 s''
            else digits1 s'
        end
      else Some s3
  end.

(** The input after the closing quote of a string whose opening quote
    has been read: any code unit from 0x20 on but the quote and the
    backslash, the two-unit escapes, and [\u] with four hexadecimal
    digits of any value. *)
Fixpoint string_end (s : string) : option string :=
  match s with
  | EmptyString => None
  | String c s' =>
      if (N_of_ascii c =? 34)%N then Some s'
      else if (N_of_ascii c =? 92)%N then
        match s' with
        | EmptyString => None
        | String e s'' =>
            if (N_of_ascii e =? 117)%N then
              match s'' with
              | String h1 (String h2 (String h3 (String h4 s3))) =>
                  match hex_value h1, hex_value h2, hex_value h3, hex_value h4 with
                  | Some _, Some _, Some _, Some _ => string_end s3
                  | _, _, _, _ => None
                  end
              | _ => None
              end
            else
              match simple_escape e with
              | Some _ => string_end s''
              | None => None
              end
        end
      else if (N_of_ascii c <? 32)%N then None
      else string_end s'
  end.

(** What [scan] reads: a value; the rest of an array after an element;
    one member of an object; the rest of an object after a member. *)
Inductive Production : Type := Value | Elements | Member | Members.

(** The input after one production of the JSON grammar, whitespace
    before it skipped; [None] when the input does not start with one.
    Every recursive call is made after a code unit has been read, so a
    fuel above the length of the input is never used up. *)
Fixpoint scan (fuel : nat) (what : Production) (s : string) : option string :=
  match fuel with
  | O => None
  | S fuel' =>
      match skip_ws s with
      | EmptyString => None
      | String c s' =>
          match what with
          | Value =>
              match N_of_ascii c with
              | 34%N => string_end s'
              | 91%N =>
                  match skip_ws s' with
                  | EmptyString => None
                  | String d r =>
                      if (N_of_ascii d =? 93)%N then Some r
                      else r1 ← scan fuel' Value s'; scan fuel' Elements r1
                  end
              | 123%N =>
                  match skip_ws s' with
                  | EmptyString => None
                  | String d r =>
                      if (N_of_ascii d =? 125)%N then Some r
                      else r1 ← scan fuel' Member s'; scan fuel' Members r1
                  end
              | 116%N => expect "rue" s'
              | 102%N => expect "alse" s'
              | 110%N => expect "ull" s'
              | _ => number (String c s')
              end
          | Elements =>
              if (N_of_ascii c =? 93)%N then Some s'
              else if (N_of_ascii c =? 44)%N then
                r1 ← scan fuel' Value s'; scan fuel' Elements r1
              else None
          | Member =>
              if (N_of_ascii c =? 34)%N then
                r1 ← string_end s';
                match skip_ws r1 with
                | EmptyString => None
                | String d r2 => if (N_of_ascii d =? 58)%N then scan fuel' Value r2 else None
                end
              else None
          | Members =>
              if (N_of_ascii c =? 125)%N then Some s'
              else if (N_of_ascii c =? 44)%N then
                r1 ← scan fuel' Member s'; scan fuel' Members r1
              else None
          end
      end
  end.

(** The text is a JSON text: one value, whitespace allowed around it.
    [JSON.parse] throws a SyntaxError exactly on the other texts. *)
Definition well_formed (text : string) : bool :=
  match scan (S (String.length text)) Value text with
  | Some rest =>
      match skip_ws rest with
      | EmptyString => true
      | String _ _ => false
      end
  | None => false
  end.

(** [JSON.parse(text)] at the declared result type [Task[]].  On a text
    that is not a JSON text it throws a SyntaxError: [None].  On a JSON
    text it returns the value, here the list of tasks when the value is
    an array of tasks as [parse_tasks] reads them.  A JSON text that
    denotes another value (no array, members missing or in another
    order, a code unit from 256 on) has no counterpart at this type and
    is [None] too; [well_formed] tells the two apart. *)
Definition parse (text : string) : option (list Task) :=
  if well_formed text then parse_tasks text else None.

End JSON.

(* ===================================================================== *)
(** ** The execution context *)

(** The settled state of a promise. *)
Inductive Settled (A : Type) : Type :=
  | Resolved (a : A)
  | Rejected.
Arguments Resolved {A} a.
Arguments Rejected {A}.

(** [window.localStorage]: its entries, and the two ways the platform can
    throw: on a read, and on [setItem(key, value)] (quota, private mode). *)
Record Storage : Type := mkStorage
  { items : gmap string string;
    getItem_throws : bool;
    setItem_throws : string -> string -> bool }.

(** What a caller or an observer can see happen.  [console.log] lines are
    informational and left out; [console.warn] and [console.error] are
    kept, they are the only signal of the paths that change nothing. *)
Inductive Event : Type :=
  | Next (tasks : list Task)          (* tasks$.next(tasks) *)
  | SetItem (key value : string)      (* localStorage.setItem returned *)
  | ConsoleWarn (msg : string)
  | ConsoleError (msg : string).

Record World : Type := mkWorld
  { tasks_subject : list Task;        (* the value held by tasks$ *)
    localStorage : option Storage;    (* None: no window, or no localStorage *)
    events : list Event }.            (* oldest first *)

Definition emit (e : Event) (w : World) : World :=
  mkWorld (tasks_subject w) (localStorage w) (events w ++ [e]).

(* ===================================================================== *)
(** ** application-task-state.service.ts *)

(** [new ApplicationTaskStateService()] in a context with storage [ls]:
    [tasks$] starts at the empty array. *)
Definition initial (ls : option Storage) : World := mkWorld [] ls [].

(** [tasks$.getValue()] *)
Definition getValue (w : World) : list Task := tasks_subject w.

(** [tasks$.next(tasks)]: replaces the value and broadcasts it. *)
Definition next (tasks : list Task) (w : World) : World :=
  mkWorld tasks (localStorage w) (events w ++ [Next tasks]).

(* ===================================================================== *)
(** ** task-crud-operations.service.ts *)

Definition TASKS_STORAGE_KEY : string := "tutorialAppTasks".

(** Truthiness of a string: the empty string is falsy. *)
Definition truthy (s : string) : bool := negb (str_eq s EmptyString).

Definition set_items (m : gmap string string) (ls : Storage) : Storage :=
  mkStorage m (getItem_throws ls) (setItem_throws ls).

Definition _saveTasksToDevice (tasks : list Task) (w : World) : Settled unit * World :=
  match localStorage w with
  | Some ls =>
      let tasksJson := JSON.stringify tasks in
      if setItem_throws ls TASKS_STORAGE_KEY tasksJson then
        (Rejected, emit (ConsoleError "Error saving tasks to localStorage:") w)
      else
        (Resolved tt,
         mkWorld (tasks_subject w)
                 (Some (set_items (<[TASKS_STORAGE_KEY := tasksJson]> (items ls)) ls))
                 (events w ++ [SetItem TASKS_STORAGE_KEY tasksJson]))
  | None =>
      (Resolved tt, emit (ConsoleWarn "localStorage is not available. Tasks cannot be saved.") w)
  end.

Definition _loadTasksFromDevice (w : World) : Settled (list Task) * World :=
  match localStorage w with
  | Some ls =>
      if getItem_throws ls then
        (Resolved [], emit (ConsoleError "Error loading tasks from localStorage:") w)
      else
        match items ls !! TASKS_STORAGE_KEY with
        | Some tasksJson =>
            if truthy tasksJson then
              match JSON.parse tasksJson with
              | Some loadedTasks => (Resolved loadedTasks, w)
              | None =>
                  (Resolved [], emit (ConsoleError "Error loading tasks from localStorage:") w)
              end
            else (Resolved [], w)
        | None => (Resolved [], w)
        end
  | None =>
      (Resolved [], emit (ConsoleWarn "localStorage is not available. Cannot load tasks.") w)
  end.

Definition loadAllTasksFromDevice (w : World) : Settled unit * World :=
  match _loadTasksFromDevice w with
  | (Resolved tasks, w1) => (Resolved tt, next tasks w1)
  | (Rejected, w1) =>
      (Resolved tt,
       next [] (emit (ConsoleError "Failed to load tasks from device storage:") w1))
  end.

(** The id of a new task, from [now = Date.now()] and
    [random36 = Math.random().toString(36)]. *)
Definition newTaskId (now : Z) (random36 : string) : string :=
  "task-" +:+ number_to_string now +:+ "-" +:+ js_substring 2 7 random36.

(** No code unit of [s] is the dash. *)
Fixpoint dash_free (s : string) : bool :=
  match s with
  | EmptyString => true
  | String c s' => negb (Ascii.eqb c "-") && dash_free s'
  end.

Definition createNewTask (now : Z) (random36 : string) (title : string) (w : World)
  : Settled unit * World :=
  if negb (truthy title) || str_eq (trim title) EmptyString then
    (Resolved tt, emit (ConsoleWarn "Cannot create task with empty title.") w)
  else
    let newTask :=
      {| id := newTaskId now random36; title := trim title; isComplete := false |} in
    let currentTasks := getValue w in
    let updatedTasks := currentTasks ++ [newTask] in
    _saveTasksToDevice updatedTasks (next updatedTasks w).

Definition updateTaskStatus (taskId : string) (isComplete' : bool) (w : World)
  : Settled unit * World :=
  let currentTasks := getValue w in
  let updatedTasks :=
    List.map (fun task =>
                if str_eq (id task) taskId
                then {| id := id task; title := title task; isComplete := isComplete' |}
                else task)
             currentTasks in
  if negb (str_eq (JSON.stringify currentTasks) (JSON.stringify updatedTasks)) then
    _saveTasksToDevice updatedTasks (next updatedTasks w)
  else
    (Resolved tt,
     emit (ConsoleWarn ("Task with ID: " +:+ taskId +:+ " not found for updating status.")) w).

Definition deleteTask (taskId : string) (w : World) : Settled unit * World :=
  let currentTasks := getValue w in
  let updatedTasks := List.filter (fun task => negb (str_eq (id task) taskId)) currentTasks in
  if negb (Nat.eqb (List.length currentTasks) (List.length updatedTasks)) then
    _saveTasksToDevice updatedTasks (next updatedTasks w)
  else
    (Resolved tt,
     emit (ConsoleWarn ("Task with ID: " +:+ taskId +:+ " not found for deletion.")) w).

(* ===================================================================== *)
(** ** Sequences of operations *)

(** One call of the UI layer into the service.  [Create] carries the
    clock and the random rendering its call reads. *)
Inductive Op : Type :=
  | Create (now : Z) (random36 : string) (title : string)
  | UpdateStatus (taskId : string) (isComplete' : bool)
  | Delete (taskId : string).

Definition run_op (op : Op) (w : World) : Settled unit * World :=
  match op with
  | Create now random36 title => createNewTask now random36 title w
  | UpdateStatus taskId b => updateTaskStatus taskId b w
  | Delete taskId => deleteTask taskId w
  end.

(** The calls are awaited one after the other; a rejected call is caught
    by the page, and the next call runs on the world it left. *)
Fixpoint run_ops (ops : list Op) (w : World) : World :=
  match ops with
  | [] => w
  | op :: ops' => run_ops ops' (snd (run_op op w))
  end.

Definition ids (l : list Task) : list string := List.map id l.

(** No [Create] of the sequence generates an id that is in the list at
    the time of the call. *)
Fixpoint collision_free (ops : list Op) (w : World) : Prop :=
  match ops with
  | [] => True
  | op :: ops' =>
      match op with
      | Create now random36 title =>
          (str_eq (trim title) EmptyString = false ->
           ~ In (newTaskId now random36) (ids (getValue w)))
      | _ => True
      end /\ collision_free ops' (snd (run_op op w))
  end.

(* ===================================================================== *)
(** ** Postconditions *)

(** What an observer and the caller see of a commit of [l] followed by
    the persistence step on the same [l], started in world [w]: the
    broadcast comes first, then the one event of the persistence step;
    the write reaches the storage when there is one and it accepts the
    record. *)
Definition commit_then_persist (l : list Task) (w : World) (r : Settled unit * World) : Prop :=
  tasks_subject (snd r) = l /\
  match localStorage w with
  | None =>
      fst r = Resolved tt /\
      localStorage (snd r) = None /\
      events (snd r) =
        events w ++ [Next l; ConsoleWarn "localStorage is not available. Tasks cannot be saved."]
  | Some ls =>
      if setItem_throws ls TASKS_STORAGE_KEY (JSON.stringify l) then
        fst r = Rejected /\
        localStorage (snd r) = Some ls /\
        events (snd r) =
          events w ++ [Next l; ConsoleError "Error saving tasks to localStorage:"]
      else
        fst r = Resolved tt /\
        localStorage (snd r) =
          Some (set_items (<[TASKS_STORAGE_KEY := JSON.stringify l]> (items ls)) ls) /\
        events (snd r) =
          events w ++ [Next l; SetItem TASKS_STORAGE_KEY (JSON.stringify l)]
  end.

(** The arrow function that [updateTaskStatus] maps over the list. *)
Definition set_status (taskId : string) (b : bool) (task : Task) : Task :=
  if str_eq (id task) taskId
  then {| id := id task; title := title task; isComplete := b |}
  else task.

(** Number of tasks of [l] that carry the id [taskId]. *)
Definition count_id (taskId : string) (l : list Task) : nat :=
  List.length (List.filter (fun task => str_eq (id task) taskId) l).

(** The calls that change the list, told from their input: a Create
    whose title is not blank, an UpdateStatus of an id that a task
    carries with the other status, a Delete of an id that is in the
    list. *)
Definition changes_list (op : Op) (w : World) : Prop :=
  match op with
  | Create _ _ text => trim text <> EmptyString
  | UpdateStatus taskId b =>
      exists t, In t (getValue w) /\ id t = taskId /\ isComplete t <> b
  | Delete taskId => In taskId (ids (getValue w))
  end.

(** The list that such a call computes from the list of the store. *)
Definition new_list (op : Op) (w : World) : list Task :=
  match op with
  | Create now random36 text =>
      getValue w ++ [mkTask (newTaskId now random36) (trim text) false]
  | UpdateStatus taskId b => List.map (set_status taskId b) (getValue w)
  | Delete taskId =>
      List.filter (fun task => negb (str_eq (id task) taskId)) (getValue w)
  end.

(* ===================================================================== *)
(** ** page.tsx: the handlers of [HomeScreenPage] *)

(** The argument of [toast({ title, description, variant })]. *)
Inductive Variant : Type := DefaultVariant | Destructive.

Record Toast : Type := mkToast
  { toast_title : string;
    description : string;
    variant : Variant }.

(** The component state that the handlers read and set, and the toasts
    shown so far (oldest first).  The [tasks] state is set by the
    subscription to [tasks$]; the one handler that reads it takes the
    value it closed over as an argument. *)
Record Page : Type := mkPage
  { newTaskTitle : string;
    isLoading : bool;
    toasts : list Toast }.

Definition toast (t : Toast) (p : Page) : Page :=
  mkPage (newTaskTitle p) (isLoading p) (toasts p ++ [t]).

Definition setNewTaskTitle (value : string) (p : Page) : Page :=
  mkPage value (isLoading p) (toasts p).

Definition setIsLoading (b : bool) (p : Page) : Page :=
  mkPage (newTaskTitle p) b (toasts p).

(** The text between double quotes, as in the template literals of the
    toasts. *)
Definition in_quotes (s : string) : string :=
  String dquote (s +:+ String dquote EmptyString).

(** The async function [initializeTasks] of the mount effect. *)
Definition initializeTasks (p : Page) (w : World) : Page * World :=
  let p1 := setIsLoading true p in
  match loadAllTasksFromDevice w with
  | (Resolved _, w1) => (setIsLoading false p1, w1)
  | (Rejected, w1) => (p1, w1)
  end.

Definition handleAddTask (now : Z) (random36 : string) (p : Page) (w : World) : Page * World :=
  if negb (truthy (trim (newTaskTitle p))) then
    (toast (mkToast "Cannot add task" "Task title cannot be empty." Destructive) p, w)
  else
    match createNewTask now random36 (newTaskTitle p) w with
    | (Resolved _, w1) =>
        (toast (mkToast "Task Added"
                  (in_quotes (newTaskTitle p) +:+ " has been added to your list.")
                  DefaultVariant)
           (setNewTaskTitle EmptyString p),
         w1)
    | (Rejected, w1) =>
        (toast (mkToast "Error" "Could not add the task. Please try again." Destructive) p,
         emit (ConsoleError "Error adding task:") w1)
    end.

Definition handleNewTaskTitleChange (value : string) (p : Page) : Page :=
  setNewTaskTitle value p.

(** [tasks] is the list the handler closed over at the last render. *)
Definition handleToggleTaskComplete (tasks : list Task) (taskId : string) (currentStatus : bool)
    (p : Page) (w : World) : Page * World :=
  match updateTaskStatus taskId (negb currentStatus) w with
  | (Resolved _, w1) =>
      let task := List.find (fun t => str_eq (id t) taskId) tasks in
      (toast (mkToast
                ("Task " +:+ (if negb currentStatus then "Completed" else "Marked Incomplete"))
                (in_quotes (match task with Some t => title t | None => "undefined" end)
                 +:+ " status updated.")
                DefaultVariant) p,
       w1)
  | (Rejected, w1) =>
      (toast (mkToast "Error" "Could not update task status. Please try again." Destructive) p,
       emit (ConsoleError "Error toggling task status:") w1)
  end.

Definition handleDeleteTask (taskId taskTitle : string) (p : Page) (w : World) : Page * World :=
  match deleteTask taskId w with
  | (Resolved _, w1) =>
      (toast (mkToast "Task Deleted"
                (in_quotes taskTitle +:+ " has been removed from your list.")
                DefaultVariant) p,
       w1)
  | (Rejected, w1) =>
      (toast (mkToast "Error" "Could not delete the task. Please try again." Destructive) p,
       emit (ConsoleError "Error deleting task:") w1)
  end.

(** The number shown in the footer: [tasks.filter(t => !t.isComplete).length]. *)
Definition pendingCount (tasks : list Task) : nat :=
  List.length (List.filter (fun t => negb (isComplete t)) tasks).

(* ===================================================================== *)
(** ** Further predicates *)

(** Every code unit of [s] is one that [trim] strips. *)
Fixpoint all_white_space (s : string) : bool :=
  match s with
  | EmptyString => true
  | String c s' => is_white_space c && all_white_space s'
  end.

(** The storage accepts every write. *)
Definition accepts_writes (ls : Storage) : Prop :=
  forall key value, setItem_throws ls key value = false.

(** The record under the storage key is the JSON text of the list held
    by the store. *)
Definition in_sync (w : World) : Prop :=
  exists ls, localStorage w = Some ls /\
             items ls !! TASKS_STORAGE_KEY = Some (JSON.stringify (tasks_subject w)).

(** Every [setItem] of the trace is a write under the storage key, of the
    JSON text of the list broadcast by the event just before it. *)
Definition writes_follow_commits (evs : list Event) : Prop :=
  forall before key value after,
    evs = before ++ SetItem key value :: after ->
    key = TASKS_STORAGE_KEY /\
    exists before' l, before = before' ++ [Next l] /\ value = JSON.stringify l.

(** A title as [createNewTask] stores it: not empty, nothing left to
    trim. *)
Definition well_titled (t : Task) : Prop :=
  title t <> EmptyString /\ trim (title t) = title t.

(* ===================================================================== *)
(** * Properties *)

Local Arguments String.append !_ _ / : simpl nomatch.

(** ** The JSON text of a task list decodes to the list *)

Lemma append_assoc (a b c : string) : (a +:+ b) +:+ c = a +:+ (b +:+ c).
Proof. induction a as [|x a IH]; simpl; [reflexivity | f_equal; exact IH]. Qed.

Lemma append_length (a b : string) :
  String.length (a +:+ b) = String.length a + String.length b.
Proof. induction a as [|x a IH]; simpl; [reflexivity | f_equal; exact IH]. Qed.

Lemma string_chars_quote_char (c : ascii) (r : string) :
  JSON.string_chars (JSON.quote_char c +:+ r) = JSON.cons_char c (JSON.string_chars r).
Proof.
  destruct c as [[] [] [] [] [] [] [] []]; reflexivity.
Qed.

Lemma string_chars_quote_body (s rest : string) :
  JSON.string_chars (JSON.quote_body s +:+ String dquote rest) = Some (s, rest).
Proof.
  induction s as [|c s IH]; cbn [JSON.quote_body].
  - reflexivity.
  - rewrite append_assoc, string_chars_quote_char, IH. reflexivity.
Qed.

Lemma parse_string_quote (s rest : string) :
  JSON.parse_string (JSON.quote s +:+ rest) = Some (s, rest).
Proof.
  unfold JSON.quote, JSON.parse_string. simpl.
  rewrite append_assoc. simpl. apply string_chars_quote_body.
Qed.

Lemma parse_string_quoted (s rest : string) :
  JSON.parse_string
    (String dquote ((JSON.quote_body s +:+ String dquote EmptyString) +:+ rest))
  = Some (s, rest).
Proof. apply (parse_string_quote s rest). Qed.

Lemma parse_task_stringify (t : Task) (rest : string) :
  JSON.parse_task (JSON.stringify_task t +:+ rest) = Some (t, rest).
Proof.
  destruct t as [i ti b]. unfold JSON.stringify_task, JSON.parse_task.
  cbn [id title isComplete]. rewrite !append_assoc.
  unfold JSON.member_name. simpl.
  destruct b; simpl; repeat (rewrite parse_string_quoted; simpl); reflexivity.
Qed.

Lemma stringify_elements_tail (t : Task) (l : list Task) :
  JSON.stringify_elements (t :: l) +:+ "]" = JSON.stringify_task t +:+ JSON.stringify_tail l.
Proof.
  revert t. induction l as [|u l IH]; intros t.
  - reflexivity.
  - change (JSON.stringify_elements (t :: u :: l))
      with (JSON.stringify_task t +:+ "," +:+ JSON.stringify_elements (u :: l)).
    rewrite !append_assoc, IH. reflexivity.
Qed.

Lemma parse_more_tail (l : list Task) (fuel : nat) :
  List.length l < fuel -> JSON.parse_more fuel (JSON.stringify_tail l) = Some l.
Proof.
  revert fuel. induction l as [|t l IH]; intros fuel Hf.
  - destruct fuel; [lia | reflexivity].
  - destruct fuel as [|fuel]; [simpl in Hf; lia |].
    cbn [JSON.stringify_tail JSON.parse_more].
    change ("," +:+ JSON.stringify_task t +:+ JSON.stringify_tail l)
      with (String "," (JSON.stringify_task t +:+ JSON.stringify_tail l)).
    change (JSON.token "]" (String "," ?x)) with (@None string).
    change (JSON.token "," (String "," ?x)) with (Some x).
    cbn [mbind option_bind]. rewrite parse_task_stringify. cbn [mbind option_bind].
    rewrite IH by (simpl in Hf; lia). reflexivity.
Qed.

Lemma stringify_tail_length (l : list Task) :
  List.length l < String.length (JSON.stringify_tail l).
Proof.
  induction l as [|t l IH]; simpl; [lia |].
  rewrite append_length. lia.
Qed.

(** *** The JSON text of a task list is a JSON text *)

Lemma string_end_quote_char (c : ascii) (r : string) :
  JSON.string_end (JSON.quote_char c +:+ r) = JSON.string_end r.
Proof.
  destruct c as [[] [] [] [] [] [] [] []]; reflexivity.
Qed.

Lemma string_end_quote_body (s rest : string) :
  JSON.string_end (JSON.quote_body s +:+ String dquote rest) = Some rest.
Proof.
  induction s as [|c s IH]; cbn [JSON.quote_body].
  - reflexivity.
  - rewrite append_assoc, string_end_quote_char. exact IH.
Qed.

Lemma string_end_quoted (s rest : string) :
  JSON.string_end ((JSON.quote_body s +:+ String dquote EmptyString) +:+ rest) = Some rest.
Proof. rewrite append_assoc. apply string_end_quote_body. Qed.

Lemma scan_task (fuel : nat) (t : Task) (rest : string) :
  JSON.scan (S (S (S (S (S fuel))))) JSON.Value (JSON.stringify_task t +:+ rest) = Some rest.
Proof.
  destruct t as [i ti b]. unfold JSON.stringify_task.
  cbn [id title isComplete]. rewrite !append_assoc.
  destruct b; simpl; repeat (rewrite string_end_quoted; simpl); reflexivity.
Qed.

Lemma scan_tail (l : list Task) (fuel : nat) :
  List.length l + 6 <= fuel ->
  JSON.scan fuel JSON.Elements (JSON.stringify_tail l) = Some EmptyString.
Proof.
  revert fuel. induction l as [|t l IH]; intros fuel Hf.
  - destruct fuel as [|fuel]; [lia | reflexivity].
  - destruct fuel as [|fuel]; [lia |]. cbn [List.length] in Hf.
    cbn [JSON.stringify_tail].
    change ("," +:+ JSON.stringify_task t +:+ JSON.stringify_tail l)
      with (String "," (JSON.stringify_task t +:+ JSON.stringify_tail l)).
    change (JSON.scan (S fuel) JSON.Elements (String "," ?x))
      with (JSON.scan fuel JSON.Value x ≫= JSON.scan fuel JSON.Elements).
    do 5 (destruct fuel as [|fuel]; [lia |]).
    rewrite scan_task. cbn [mbind option_bind]. apply IH. lia.
Qed.

Lemma stringify_task_length (t : Task) : 5 <= String.length (JSON.stringify_task t).
Proof.
  unfold JSON.stringify_task. rewrite !append_length. cbn. lia.
Qed.

Lemma well_formed_stringify (l : list Task) : JSON.well_formed (JSON.stringify l) = true.
Proof.
  destruct l as [|t l]; [reflexivity |].
  unfold JSON.stringify.
  change ("[" +:+ JSON.stringify_elements (t :: l) +:+ "]")
    with (String "[" (JSON.stringify_elements (t :: l) +:+ "]")).
  rewrite stringify_elements_tail.
  unfold JSON.well_formed.
  set (text := String "[" (JSON.stringify_task t +:+ JSON.stringify_tail l)).
  assert (Hlen : List.length l + 7 <= String.length text).
  { unfold text. cbn [String.length]. rewrite append_length.
    pose proof (stringify_task_length t). pose proof (stringify_tail_length l). lia. }
  destruct (String.length text) as [|n] eqn:En; [lia |].
  assert (E : JSON.scan (S (S n)) JSON.Value text =
              JSON.scan (S n) JSON.Value (JSON.stringify_task t +:+ JSON.stringify_tail l)
              ≫= JSON.scan (S n) JSON.Elements).
  { unfold text, JSON.stringify_task. reflexivity. }
  rewrite E. clear E En. do 4 (destruct n as [|n]; [lia |]).
  rewrite scan_task. cbn [mbind option_bind].
  rewrite scan_tail by lia. reflexivity.
Qed.

Lemma parse_tasks_stringify (l : list Task) : JSON.parse_tasks (JSON.stringify l) = Some l.
Proof.
  destruct l as [|t l]; [reflexivity |].
  unfold JSON.stringify.
  change ("[" +:+ JSON.stringify_elements (t :: l) +:+ "]")
    with (String "[" (JSON.stringify_elements (t :: l) +:+ "]")).
  rewrite stringify_elements_tail.
  unfold JSON.parse_tasks.
  change (JSON.token "[" (String "[" ?x)) with (Some x).
  cbn [mbind option_bind].
  replace (JSON.token "]" (JSON.stringify_task t +:+ JSON.stringify_tail l)) with (@None string)
    by reflexivity.
  rewrite parse_task_stringify. cbn [mbind option_bind].
  rewrite parse_more_tail by (pose proof (stringify_tail_length l); lia).
  reflexivity.
Qed.

Lemma parse_stringify (l : list Task) : JSON.parse (JSON.stringify l) = Some l.
Proof.
  unfold JSON.parse. rewrite well_formed_stringify. apply parse_tasks_stringify.
Qed.

Lemma parse_not_well_formed (text : string) :
  JSON.well_formed text = false -> JSON.parse text = None.
Proof. intros H. unfold JSON.parse. rewrite H. reflexivity. Qed.

Lemma stringify_inj (l1 l2 : list Task) :
  JSON.stringify l1 = JSON.stringify l2 -> l1 = l2.
Proof.
  intros H. apply (f_equal JSON.parse) in H. rewrite !parse_stringify in H. congruence.
Qed.

Lemma stringify_truthy (l : list Task) : truthy (JSON.stringify l) = true.
Proof. reflexivity. Qed.

(** ** The persistence step *)

Lemma str_eq_true (a b : string) : str_eq a b = true <-> a = b.
Proof. apply String.eqb_eq. Qed.

Lemma str_eq_false (a b : string) : str_eq a b = false <-> a <> b.
Proof. apply String.eqb_neq. Qed.

Lemma save_tasks_subject (l : list Task) (w : World) :
  tasks_subject (snd (_saveTasksToDevice l w)) = tasks_subject w.
Proof.
  unfold _saveTasksToDevice.
  destruct (localStorage w) as [ls|]; [|reflexivity].
  destruct (setItem_throws ls _ _); reflexivity.
Qed.

Lemma save_after_next (l : list Task) (w : World) :
  commit_then_persist l w (_saveTasksToDevice l (next l w)).
Proof.
  unfold commit_then_persist, _saveTasksToDevice, next, emit. cbn [localStorage].
  destruct (localStorage w) as [ls|].
  - destruct (setItem_throws ls _ _); cbn; rewrite <- ?app_assoc; auto.
  - cbn. rewrite <- app_assoc. auto.
Qed.

(** ** createNewTask *)

Lemma createNewTask_rejects_blank (now : Z) (random36 title : string) (w : World) :
  trim title = EmptyString ->
  createNewTask now random36 title w =
    (Resolved tt, emit (ConsoleWarn "Cannot create task with empty title.") w).
Proof.
  intros H. unfold createNewTask. rewrite H. cbn [str_eq String.eqb].
  rewrite orb_true_r. reflexivity.
Qed.

Lemma createNewTask_accepts (now : Z) (random36 title : string) (w : World) :
  trim title <> EmptyString ->
  createNewTask now random36 title w =
    let updatedTasks :=
      getValue w ++ [mkTask (newTaskId now random36) (trim title) false] in
    _saveTasksToDevice updatedTasks (next updatedTasks w).
Proof.
  intros H. unfold createNewTask.
  assert (Ht : truthy title = true).
  { unfold truthy. destruct title; [now elim H | reflexivity]. }
  rewrite Ht. apply str_eq_false in H. rewrite H. reflexivity.
Qed.

(** ** updateTaskStatus *)

Lemma map_set_status_id (taskId : string) (b : bool) (l : list Task) :
  (forall t, In t l -> id t = taskId -> isComplete t = b) ->
  List.map (set_status taskId b) l = l.
Proof.
  induction l as [|t l IH]; intros H; cbn [List.map]; [reflexivity |].
  rewrite IH by (intros u Hu; apply H; right; exact Hu).
  f_equal. unfold set_status.
  destruct (str_eq (id t) taskId) eqn:E; [|reflexivity].
  apply str_eq_true in E. pose proof (H t (or_introl eq_refl) E) as Hb.
  destruct t; cbn in *. now rewrite Hb.
Qed.

Lemma map_set_status_changes (taskId : string) (b : bool) (l : list Task) :
  (exists t, In t l /\ id t = taskId /\ isComplete t <> b) ->
  List.map (set_status taskId b) l <> l.
Proof.
  intros (t & Hin & Hid & Hb) Heq.
  induction l as [|u l IH]; [exact Hin |].
  cbn [List.map] in Heq. injection Heq as Hu Hl.
  destruct Hin as [-> | Hin]; [| exact (IH Hin Hl)].
  unfold set_status in Hu. apply str_eq_true in Hid. rewrite Hid in Hu.
  apply Hb. rewrite <- Hu. reflexivity.
Qed.

Lemma ids_map_set_status (taskId : string) (b : bool) (l : list Task) :
  ids (List.map (set_status taskId b) l) = ids l.
Proof.
  unfold ids. rewrite List.map_map. apply List.map_ext.
  intros t. unfold set_status. destruct (str_eq (id t) taskId); reflexivity.
Qed.

Lemma updateTaskStatus_unfold (taskId : string) (b : bool) (w : World) :
  updateTaskStatus taskId b w =
    let updatedTasks := List.map (set_status taskId b) (getValue w) in
    if negb (str_eq (JSON.stringify (getValue w)) (JSON.stringify updatedTasks)) then
      _saveTasksToDevice updatedTasks (next updatedTasks w)
    else
      (Resolved tt,
       emit (ConsoleWarn ("Task with ID: " +:+ taskId +:+ " not found for updating status.")) w).
Proof. reflexivity. Qed.

Lemma stringify_differs (l1 l2 : list Task) :
  l1 <> l2 -> str_eq (JSON.stringify l1) (JSON.stringify l2) = false.
Proof. intros H. apply str_eq_false. intros E. apply H, stringify_inj, E. Qed.

(** ** deleteTask *)

Lemma filter_length_split (p : Task -> bool) (l : list Task) :
  List.length l = List.length (List.filter p l) + List.length (List.filter (fun t => negb (p t)) l).
Proof.
  induction l as [|t l IH]; cbn [List.filter]; [reflexivity |].
  destruct (p t); cbn [negb List.length]; lia.
Qed.

Lemma filter_all (p : Task -> bool) (l : list Task) :
  (forall t, In t l -> p t = true) -> List.filter p l = l.
Proof.
  induction l as [|t l IH]; intros H; cbn [List.filter]; [reflexivity |].
  rewrite (H t (or_introl eq_refl)), IH; [reflexivity |].
  intros u Hu. apply H. right. exact Hu.
Qed.

Lemma count_id_pos (taskId : string) (l : list Task) :
  In taskId (ids l) <-> 0 < count_id taskId l.
Proof.
  unfold count_id, ids. induction l as [|t l IH]; cbn [List.map List.filter In List.length].
  - split; [tauto | lia].
  - destruct (str_eq (id t) taskId) eqn:E; cbn [List.length].
    + apply str_eq_true in E. split; [lia | auto].
    + apply str_eq_false in E. rewrite <- IH. split; [intros [H|H]; [contradiction | exact H] | auto].
Qed.

Lemma count_id_NoDup (taskId : string) (l : list Task) :
  List.NoDup (ids l) -> count_id taskId l <= 1.
Proof.
  unfold count_id, ids. induction l as [|t l IH]; cbn [List.map List.filter List.length]; intros H.
  - lia.
  - apply List.NoDup_cons_iff in H as [Hn Hd].
    destruct (str_eq (id t) taskId) eqn:E; cbn [List.length]; [| auto].
    apply str_eq_true in E. subst taskId.
    assert (count_id (id t) l = 0) as Hz.
    { pose proof (count_id_pos (id t) l) as P. unfold ids in P.
      destruct (count_id (id t) l) eqn:C; [reflexivity |].
      exfalso. apply Hn, P. lia. }
    unfold count_id in Hz. rewrite Hz. lia.
Qed.

(* ===================================================================== *)
(** * The claims *)

(** ** Create with a blank title *)

(** C1, as stated, fails: a whitespace-only title does not make
    [createNewTask] fail with an error reported to the caller; the
    promise resolves. *)
Lemma createNewTask_blank_resolves :
  trim "  " = EmptyString /\
  fst (createNewTask 1700000000000 "0.4fzyo82mvyr" "  " (initial None)) = Resolved tt /\
  fst (createNewTask 1700000000000 "0.4fzyo82mvyr" "  " (initial None)) <> Rejected.
Proof. split; [reflexivity | split; [reflexivity | discriminate]]. Qed.

(** C1, amended: for every title that is empty or whitespace-only after
    trimming, [createNewTask] resolves without an error; it changes
    neither the list of the store (nor its length) nor the storage, it
    broadcasts nothing and writes nothing: its one effect is a console
    warning. *)
Theorem createNewTask_blank_no_effect (now : Z) (random36 title : string) (w : World) :
  trim title = EmptyString ->
  let r := createNewTask now random36 title w in
  fst r = Resolved tt /\
  tasks_subject (snd r) = tasks_subject w /\
  List.length (tasks_subject (snd r)) = List.length (tasks_subject w) /\
  localStorage (snd r) = localStorage w /\
  events (snd r) = events w ++ [ConsoleWarn "Cannot create task with empty title."].
Proof.
  intros H r. subst r. rewrite (createNewTask_rejects_blank _ _ _ _ H).
  cbn. auto.
Qed.

Lemma createNewTask_blank_no_effect_witness :
  trim "  " = EmptyString /\
  let w := initial (Some (mkStorage ∅ false (fun _ _ => false))) in
  let r := createNewTask 1700000000000 "0.4fzyo82mvyr" "  " w in
  fst r = Resolved tt /\
  tasks_subject (snd r) = tasks_subject w /\
  List.length (tasks_subject (snd r)) = List.length (tasks_subject w) /\
  localStorage (snd r) = localStorage w /\
  events (snd r) = events w ++ [ConsoleWarn "Cannot create task with empty title."].
Proof.
  split; [reflexivity |].
  apply (createNewTask_blank_no_effect 1700000000000 "0.4fzyo82mvyr" "  ").
  reflexivity.
Defined.

(** ** Uniqueness of the ids *)

Lemma createNewTask_tasks (now : Z) (random36 title : string) (w : World) :
  tasks_subject (snd (createNewTask now random36 title w)) =
    if str_eq (trim title) EmptyString then tasks_subject w
    else tasks_subject w ++ [mkTask (newTaskId now random36) (trim title) false].
Proof.
  destruct (str_eq (trim title) EmptyString) eqn:E.
  - apply str_eq_true in E. rewrite (createNewTask_rejects_blank _ _ _ _ E). reflexivity.
  - apply str_eq_false in E. rewrite (createNewTask_accepts _ _ _ _ E).
    cbn zeta. rewrite save_tasks_subject. reflexivity.
Qed.

Lemma updateTaskStatus_ids (taskId : string) (b : bool) (w : World) :
  ids (tasks_subject (snd (updateTaskStatus taskId b w))) = ids (tasks_subject w).
Proof.
  rewrite updateTaskStatus_unfold. cbn zeta.
  destruct (negb _).
  - rewrite save_tasks_subject. cbn [next tasks_subject]. apply ids_map_set_status.
  - reflexivity.
Qed.

Lemma deleteTask_tasks (taskId : string) (w : World) :
  tasks_subject (snd (deleteTask taskId w)) =
    List.filter (fun task => negb (str_eq (id task) taskId)) (tasks_subject w).
Proof.
  unfold deleteTask. cbn zeta.
  destruct (Nat.eqb _ _) eqn:E; cbn [negb].
  - cbn [snd emit tasks_subject]. apply Nat.eqb_eq in E.
    symmetry. apply filter_all. intros t Ht.
    pose proof (filter_length_split (fun task => str_eq (id task) taskId) (getValue w)) as S.
    destruct (str_eq (id t) taskId) eqn:Et; [| reflexivity]. exfalso.
    assert (In t (List.filter (fun task => str_eq (id task) taskId) (getValue w))) as Hin
      by (apply List.filter_In; split; assumption).
    destruct (List.filter (fun task => str_eq (id task) taskId) (getValue w));
      [exact Hin | cbn [List.length] in S; unfold getValue in *; lia].
  - rewrite save_tasks_subject. reflexivity.
Qed.

Lemma NoDup_ids_filter (p : Task -> bool) (l : list Task) :
  List.NoDup (ids l) -> List.NoDup (ids (List.filter p l)).
Proof.
  unfold ids. induction l as [|t l IH]; cbn [List.map List.filter]; intros H; [exact H |].
  apply List.NoDup_cons_iff in H as [Hn Hd].
  destruct (p t); cbn [List.map]; [| auto].
  apply List.NoDup_cons_iff. split; [| auto].
  intros Hin. apply Hn. apply List.in_map_iff in Hin as (u & Hu & Hf).
  apply List.in_map_iff. exists u. split; [exact Hu |].
  apply List.filter_In in Hf. tauto.
Qed.

Lemma NoDup_ids_snoc (l : list Task) (t : Task) :
  List.NoDup (ids l) -> ~ In (id t) (ids l) -> List.NoDup (ids (l ++ [t])).
Proof.
  unfold ids. intros Hd Hn. rewrite List.map_app. cbn [List.map].
  apply List.NoDup_app. repeat split.
  - exact Hd.
  - repeat constructor. intros [].
  - intros x Hx [<- | []]. exact (Hn Hx).
Qed.

Lemma run_op_keeps_unique (op : Op) (w : World) :
  List.NoDup (ids (tasks_subject w)) ->
  collision_free [op] w ->
  List.NoDup (ids (tasks_subject (snd (run_op op w)))).
Proof.
  intros Hd [Hc _]. destruct op as [now r ti | taskId b | taskId]; cbn [run_op].
  - rewrite createNewTask_tasks.
    destruct (str_eq (trim ti) EmptyString) eqn:E; [exact Hd |].
    apply NoDup_ids_snoc; [exact Hd | exact (Hc eq_refl)].
  - rewrite updateTaskStatus_ids. exact Hd.
  - rewrite deleteTask_tasks. apply NoDup_ids_filter, Hd.
Qed.

Lemma run_ops_keep_unique (ops : list Op) (w : World) :
  List.NoDup (ids (tasks_subject w)) ->
  collision_free ops w ->
  List.NoDup (ids (tasks_subject (run_ops ops w))).
Proof.
  revert w. induction ops as [|op ops IH]; intros w Hd Hc; cbn [run_ops]; [exact Hd |].
  destruct Hc as [Hop Hrest].
  apply IH; [| exact Hrest].
  apply run_op_keeps_unique; [exact Hd |]. split; [exact Hop | exact I].
Qed.

(** *** When ids collide *)

Lemma number_to_string_inj (z1 z2 : Z) :
  number_to_string z1 = number_to_string z2 -> z1 = z2.
Proof.
  unfold number_to_string. intros H.
  apply (f_equal NilZero.int_of_string) in H.
  assert (Hnn : forall z, Z.to_int z <> Decimal.Pos Decimal.Nil /\
                          Z.to_int z <> Decimal.Neg Decimal.Nil).
  { intros [|p|p]; cbn; split; try discriminate;
      intros [= E]; exact (Unsigned.to_uint_nonnil p E). }
  rewrite !NilZero.isi in H by apply Hnn.
  injection H as H. apply (f_equal Z.of_int) in H.
  rewrite !DecimalZ.of_to in H. exact H.
Qed.

Lemma dash_free_append_dash (a s : string) : dash_free (a +:+ String "-" s) = false.
Proof.
  induction a as [|c a IH]; cbn [String.append dash_free]; [reflexivity |].
  rewrite IH. apply andb_false_r.
Qed.

Lemma append_dash_inj (a b s1 s2 : string) :
  dash_free s1 = true -> dash_free s2 = true ->
  a +:+ String "-" s1 = b +:+ String "-" s2 -> a = b /\ s1 = s2.
Proof.
  intros H1 H2. revert b. induction a as [|c a IH]; intros [|d b] E; cbn [String.append] in E.
  - injection E as E. auto.
  - injection E as _ E. rewrite E, dash_free_append_dash in H1. discriminate H1.
  - injection E as _ E. rewrite <- E, dash_free_append_dash in H2. discriminate H2.
  - injection E as -> E. destruct (IH b E) as [-> ->]. auto.
Qed.

(** Two generated ids are equal only if the clock values are equal and
    the five-unit suffixes are equal (for renderings of numbers, which
    hold no dash). *)
Lemma newTaskId_inj (now1 now2 : Z) (r1 r2 : string) :
  dash_free (js_substring 2 7 r1) = true ->
  dash_free (js_substring 2 7 r2) = true ->
  newTaskId now1 r1 = newTaskId now2 r2 ->
  now1 = now2 /\ js_substring 2 7 r1 = js_substring 2 7 r2.
Proof.
  intros H1 H2 E. unfold newTaskId in E.
  apply String.app_inj in E.
  change ("-" +:+ ?s) with (String "-" s) in E.
  destruct (append_dash_inj _ _ _ _ H1 H2 E) as [En Es].
  split; [exact (number_to_string_inj _ _ En) | exact Es].
Qed.

(** C2, as stated, fails: two [Create] calls that read the same clock
    value and the same random rendering leave two tasks with one id in
    the list. *)
Lemma ids_collide_in_one_millisecond :
  ~ List.NoDup
      (ids (tasks_subject
              (run_ops [Create 1700000000000 "0.4fzyo82mvyr" "Buy milk";
                        Create 1700000000000 "0.4fzyo82mvyr" "Buy eggs"]
                       (initial None)))).
Proof.
  intros H. vm_compute in H.
  apply List.NoDup_cons_iff in H as [Hn _]. apply Hn. left. reflexivity.
Qed.

(** C2, amended: for all finite sequences of Create / UpdateStatus /
    Delete operations from the initial empty store in which no Create
    generates an id already present in the list at the time of its call,
    the ids of the tasks in the current list are pairwise distinct. *)
Theorem ids_unique_without_collision (ops : list Op) (ls : option Storage) :
  collision_free ops (initial ls) ->
  List.NoDup (ids (tasks_subject (run_ops ops (initial ls)))).
Proof.
  intros Hc. apply run_ops_keep_unique; [constructor | exact Hc].
Qed.

Lemma ids_unique_without_collision_witness :
  let ops := [Create 1700000000000 "0.4fzyo82mvyr" "Buy milk";
              Create 1700000000001 "0.4fzyo82mvyr" "  ";
              Create 1700000000001 "0.k3x9q0a7c1" "Buy eggs";
              UpdateStatus "task-1700000000000-4fzyo" true;
              Delete "task-1700000000001-k3x9q"] in
  collision_free ops (initial None) /\
  List.NoDup (ids (tasks_subject (run_ops ops (initial None)))).
Proof.
  assert (Hc : collision_free
                 [Create 1700000000000 "0.4fzyo82mvyr" "Buy milk";
                  Create 1700000000001 "0.4fzyo82mvyr" "  ";
                  Create 1700000000001 "0.k3x9q0a7c1" "Buy eggs";
                  UpdateStatus "task-1700000000000-4fzyo" true;
                  Delete "task-1700000000001-k3x9q"] (initial None)).
  { cbn [collision_free]. repeat split; try (intros E; vm_compute in E; discriminate E).
    - intros _ H. vm_compute in H. exact H.
    - intros _ H. vm_compute in H. destruct H as [H | H]; [discriminate H | exact H]. }
  split; [exact Hc |].
  exact (ids_unique_without_collision _ None Hc).
Defined.

(** ** Create with a proper title *)

(** C3, as stated, fails in its freshness part: the id of the new task
    is computed from the clock and the random rendering alone, and can
    be an id that is already in the list. *)
Lemma createNewTask_id_not_fresh :
  let w := snd (createNewTask 1700000000000 "0.4fzyo82mvyr" "Buy milk" (initial None)) in
  let r := createNewTask 1700000000000 "0.4fzyo82mvyr" "Buy eggs" w in
  trim "Buy eggs" <> EmptyString /\
  tasks_subject (snd r) =
    getValue w ++ [mkTask "task-1700000000000-4fzyo" "Buy eggs" false] /\
  In "task-1700000000000-4fzyo" (ids (getValue w)).
Proof.
  cbv zeta. split; [discriminate |]. split; [reflexivity |]. left. reflexivity.
Qed.

(** C3, amended: for every title that is non-empty after trimming,
    [createNewTask] builds a task whose id is [task-], the clock value,
    [-] and the code units 2 to 6 of the random rendering (an id that is
    not compared with the ids in the list), whose title is the trimmed
    title and whose [isComplete] is false; it appends the task to the end
    of the list read from the store, keeping the existing tasks and their
    order, commits that list, and hands the same list to the persistence
    step, which writes its JSON text under the storage key when there is
    a storage and it accepts the write. *)
Theorem createNewTask_appends (now : Z) (random36 text : string) (w : World) :
  trim text <> EmptyString ->
  exists newTask : Task,
    id newTask = "task-" +:+ number_to_string now +:+ "-" +:+ js_substring 2 7 random36 /\
    title newTask = trim text /\
    isComplete newTask = false /\
    commit_then_persist (getValue w ++ [newTask]) w (createNewTask now random36 text w).
Proof.
  intros H. exists (mkTask (newTaskId now random36) (trim text) false).
  repeat split.
  - rewrite (createNewTask_accepts _ _ _ _ H). cbn zeta. apply save_after_next.
  - rewrite (createNewTask_accepts _ _ _ _ H). cbn zeta. apply save_after_next.
Qed.

Lemma createNewTask_appends_witness :
  trim "  Buy milk " <> EmptyString /\
  exists newTask : Task,
    id newTask = "task-" +:+ number_to_string 1700000000000 +:+ "-" +:+
                 js_substring 2 7 "0.4fzyo82mvyr" /\
    title newTask = trim "  Buy milk " /\
    isComplete newTask = false /\
    commit_then_persist (getValue (initial None) ++ [newTask]) (initial None)
      (createNewTask 1700000000000 "0.4fzyo82mvyr" "  Buy milk " (initial None)).
Proof.
  assert (H : trim "  Buy milk " <> EmptyString) by discriminate.
  split; [exact H |].
  exact (createNewTask_appends 1700000000000 "0.4fzyo82mvyr" "  Buy milk " (initial None) H).
Defined.

(** ** UpdateStatus *)

Lemma updateTaskStatus_commits (taskId : string) (b : bool) (w : World) :
  List.map (set_status taskId b) (getValue w) <> getValue w ->
  updateTaskStatus taskId b w =
    let updatedTasks := List.map (set_status taskId b) (getValue w) in
    _saveTasksToDevice updatedTasks (next updatedTasks w).
Proof.
  intros H. rewrite updateTaskStatus_unfold. cbn zeta.
  rewrite stringify_differs by (intros E; apply H; symmetry; exact E).
  reflexivity.
Qed.

Lemma updateTaskStatus_skips (taskId : string) (b : bool) (w : World) :
  List.map (set_status taskId b) (getValue w) = getValue w ->
  updateTaskStatus taskId b w =
    (Resolved tt,
     emit (ConsoleWarn ("Task with ID: " +:+ taskId +:+ " not found for updating status.")) w).
Proof.
  intros H. rewrite updateTaskStatus_unfold. cbn zeta.
  rewrite H. unfold str_eq. rewrite String.eqb_refl. reflexivity.
Qed.



(** C5: when no task of the list has the given id, or when the tasks
    with that id already have the given value of [isComplete],
    [updateTaskStatus] resolves without an error, leaves the list of the
    store and the storage as they are, and emits one console warning:
    no broadcast, no write. *)
Theorem updateTaskStatus_noop (taskId : string) (b : bool) (w : World) :
  ~ In taskId (ids (getValue w)) \/
  (forall t, In t (getValue w) -> id t = taskId -> isComplete t = b) ->
  let r := updateTaskStatus taskId b w in
  fst r = Resolved tt /\
  tasks_subject (snd r) = tasks_subject w /\
  localStorage (snd r) = localStorage w /\
  events (snd r) =
    events w ++ [ConsoleWarn ("Task with ID: " +:+ taskId +:+ " not found for updating status.")].
Proof.
  intros H r. subst r.
  rewrite updateTaskStatus_skips; [cbn; auto |].
  apply map_set_status_id. destruct H as [H | H]; [| exact H].
  intros t Ht Hid. exfalso. apply H. unfold ids. apply List.in_map_iff. eauto.
Qed.

Lemma updateTaskStatus_noop_witness :
  let w := snd (createNewTask 1700000000000 "0.4fzyo82mvyr" "Buy milk" (initial None)) in
  (~ In "task-0-zzzzz" (ids (getValue w)) \/
   (forall t, In t (getValue w) -> id t = "task-0-zzzzz" -> isComplete t = true)) /\
  let r := updateTaskStatus "task-0-zzzzz" true w in
  fst r = Resolved tt /\
  tasks_subject (snd r) = tasks_subject w /\
  localStorage (snd r) = localStorage w /\
  events (snd r) =
    events w ++
    [ConsoleWarn ("Task with ID: " +:+ "task-0-zzzzz" +:+ " not found for updating status.")].
Proof.
  cbv zeta.
  assert (H : ~ In "task-0-zzzzz"
                (ids (getValue (snd (createNewTask 1700000000000 "0.4fzyo82mvyr" "Buy milk"
                                       (initial None))))) \/
              (forall t,
                  In t (getValue (snd (createNewTask 1700000000000 "0.4fzyo82mvyr" "Buy milk"
                                         (initial None)))) ->
                  id t = "task-0-zzzzz" -> isComplete t = true)).
  { left. intros [E | []]. discriminate E. }
  split; [exact H |].
  exact (updateTaskStatus_noop "task-0-zzzzz" true _ H).
Defined.

(** ** Delete *)

Lemma deleteTask_unfold (taskId : string) (w : World) :
  deleteTask taskId w =
    let updatedTasks :=
      List.filter (fun task => negb (str_eq (id task) taskId)) (getValue w) in
    if Nat.eqb (count_id taskId (getValue w)) 0 then
      (Resolved tt,
       emit (ConsoleWarn ("Task with ID: " +:+ taskId +:+ " not found for deletion.")) w)
    else _saveTasksToDevice updatedTasks (next updatedTasks w).
Proof.
  unfold deleteTask. cbn zeta.
  pose proof (filter_length_split (fun task => str_eq (id task) taskId) (getValue w)) as S.
  fold (count_id taskId (getValue w)) in S.
  destruct (Nat.eqb (count_id taskId (getValue w)) 0) eqn:E.
  - apply Nat.eqb_eq in E.
    replace (Nat.eqb _ _) with true; [reflexivity |].
    symmetry. apply Nat.eqb_eq. lia.
  - apply Nat.eqb_neq in E.
    replace (Nat.eqb _ _) with false; [reflexivity |].
    symmetry. apply Nat.eqb_neq. lia.
Qed.

Lemma filter_out_unique (taskId : string) (l : list Task) :
  List.NoDup (ids l) ->
  In taskId (ids l) ->
  exists (l1 : list Task) (t : Task) (l2 : list Task),
    l = l1 ++ t :: l2 /\ id t = taskId /\
    List.filter (fun task => negb (str_eq (id task) taskId)) l = l1 ++ l2.
Proof.
  unfold ids. induction l as [|u l IH]; cbn [List.map In List.filter]; intros Hd Hin; [contradiction |].
  apply List.NoDup_cons_iff in Hd as [Hn Hd].
  destruct (str_eq (id u) taskId) eqn:E; cbn [negb].
  - apply str_eq_true in E. exists [], u, l. repeat split; [exact E |].
    cbn [app]. apply filter_all. intros t Ht.
    destruct (str_eq (id t) taskId) eqn:Et; [| reflexivity].
    apply str_eq_true in Et. exfalso. apply Hn. rewrite E, <- Et.
    apply List.in_map. exact Ht.
  - apply str_eq_false in E. destruct Hin as [Hin | Hin]; [contradiction |].
    destruct (IH Hd Hin) as (l1 & t & l2 & Hl & Hid & Hf).
    exists (u :: l1), t, l2. cbn [app]. rewrite Hf, <- Hl. auto.
Qed.

(** C6, as stated, fails: when two tasks of the list share the id (two
    Create calls that read the same clock value and random rendering),
    deleting that id removes both, and the length goes down by two. *)
Lemma deleteTask_removes_every_match :
  let w := run_ops [Create 1700000000000 "0.4fzyo82mvyr" "Buy milk";
                    Create 1700000000000 "0.4fzyo82mvyr" "Buy eggs"] (initial None) in
  let r := deleteTask "task-1700000000000-4fzyo" w in
  In "task-1700000000000-4fzyo" (ids (getValue w)) /\
  List.length (getValue w) = 2 /\
  List.length (tasks_subject (snd r)) = 0 /\
  List.length (tasks_subject (snd r)) + 1 <> List.length (getValue w).
Proof.
  cbv zeta. split; [left; reflexivity |].
  split; [reflexivity |]. split; [reflexivity |]. vm_compute. discriminate.
Qed.

(** C6, amended: when the list holds a task with the given id,
    [deleteTask] commits, and hands to the persistence step, the list
    without the tasks of that id, the other tasks in their order; its
    length is shorter by the number of tasks that carried the id, which
    is exactly one, the task at one position being taken out, when the
    ids of the list are pairwise distinct.  When no task has the id,
    [deleteTask] resolves without an error, commits nothing, writes
    nothing, and emits the console warning that the task was not found. *)
Theorem deleteTask_removes (taskId : string) (w : World) :
  let r := deleteTask taskId w in
  (In taskId (ids (getValue w)) ->
   exists updatedTasks : list Task,
     commit_then_persist updatedTasks w r /\
     updatedTasks = List.filter (fun task => negb (str_eq (id task) taskId)) (getValue w) /\
     ~ In taskId (ids updatedTasks) /\
     List.length updatedTasks + count_id taskId (getValue w) = List.length (getValue w) /\
     (List.NoDup (ids (getValue w)) ->
      List.length updatedTasks + 1 = List.length (getValue w) /\
      exists (l1 : list Task) (t : Task) (l2 : list Task),
        getValue w = l1 ++ t :: l2 /\ id t = taskId /\ updatedTasks = l1 ++ l2)) /\
  (~ In taskId (ids (getValue w)) ->
   fst r = Resolved tt /\
   tasks_subject (snd r) = tasks_subject w /\
   localStorage (snd r) = localStorage w /\
   events (snd r) =
     events w ++ [ConsoleWarn ("Task with ID: " +:+ taskId +:+ " not found for deletion.")]).
Proof.
  intros r. subst r. rewrite deleteTask_unfold. cbn zeta. split.
  - intros Hin. pose proof (proj1 (count_id_pos _ _) Hin) as Hpos.
    destruct (Nat.eqb_spec (count_id taskId (getValue w)) 0) as [E | _]; [lia |].
    eexists. split; [apply save_after_next |]. split; [reflexivity |].
    pose proof (filter_length_split (fun task => str_eq (id task) taskId) (getValue w)) as S.
    fold (count_id taskId (getValue w)) in S.
    split; [| split; [lia |]].
    + unfold ids. intros Hm. apply List.in_map_iff in Hm as (t & Hid & Ht).
      apply List.filter_In in Ht as [_ Ht]. apply negb_true_iff, str_eq_false in Ht.
      contradiction.
    + intros Hd. pose proof (count_id_NoDup taskId _ Hd) as Hle.
      split; [lia |].
      destruct (filter_out_unique taskId _ Hd Hin) as (l1 & t & l2 & Hl & Hid & Hf).
      exists l1, t, l2. auto.
  - intros Hn.
    destruct (Nat.eqb_spec (count_id taskId (getValue w)) 0) as [_ | E].
    + cbn. auto.
    + exfalso. apply Hn, count_id_pos. lia.
Qed.

Lemma deleteTask_removes_witness :
  let w := run_ops [Create 1700000000000 "0.4fzyo82mvyr" "Buy milk";
                    Create 1700000000001 "0.k3x9q0a7c1" "Buy eggs"] (initial None) in
  (In "task-1700000000000-4fzyo" (ids (getValue w)) /\
   List.NoDup (ids (getValue w)) /\
   List.length (tasks_subject (snd (deleteTask "task-1700000000000-4fzyo" w))) + 1 =
     List.length (getValue w)) /\
  (~ In "task-0-zzzzz" (ids (getValue w)) /\
   tasks_subject (snd (deleteTask "task-0-zzzzz" w)) = tasks_subject w).
Proof.
  cbv zeta.
  set (w := run_ops [Create 1700000000000 "0.4fzyo82mvyr" "Buy milk";
                     Create 1700000000001 "0.k3x9q0a7c1" "Buy eggs"] (initial None)).
  assert (Hin : In "task-1700000000000-4fzyo" (ids (getValue w))) by (left; reflexivity).
  assert (Hd : List.NoDup (ids (getValue w))).
  { vm_compute. constructor; [intros [E | []]; discriminate E |].
    constructor; [intros [] | constructor]. }
  assert (Hn : ~ In "task-0-zzzzz" (ids (getValue w))).
  { vm_compute. intros [E | [E | []]]; discriminate E. }
  split.
  - split; [exact Hin | split; [exact Hd |]].
    destruct (proj1 (deleteTask_removes "task-1700000000000-4fzyo" w) Hin)
      as (l & Hc & _ & _ & _ & Hu).
    destruct Hc as [Ht _]. rewrite Ht. exact (proj1 (Hu Hd)).
  - split; [exact Hn |].
    exact (proj1 (proj2 (proj2 (deleteTask_removes "task-0-zzzzz" w) Hn))).
Defined.

(** ** Save followed by Read *)

(** C7, as stated, fails: where there is no [window.localStorage], the
    save resolves without writing and the read resolves to the empty
    list, which is not the saved list. *)
Lemma save_then_load_without_storage :
  let l := [mkTask "task-1700000000000-4fzyo" "Buy milk" false] in
  let w := initial None in
  fst (_saveTasksToDevice l w) = Resolved tt /\
  fst (_loadTasksFromDevice (snd (_saveTasksToDevice l w))) = Resolved [] /\
  fst (_loadTasksFromDevice (snd (_saveTasksToDevice l w))) <> Resolved l.
Proof. cbv zeta. split; [reflexivity | split; [reflexivity | discriminate]]. Qed.

(** C7, amended: where there is a [window.localStorage] whose reads do
    not throw and which accepts the write of the record, for every list
    of tasks the save followed by the read resolves to that list. *)
Theorem save_then_load (l : list Task) (w : World) (ls : Storage) :
  localStorage w = Some ls ->
  getItem_throws ls = false ->
  setItem_throws ls TASKS_STORAGE_KEY (JSON.stringify l) = false ->
  fst (_saveTasksToDevice l w) = Resolved tt /\
  fst (_loadTasksFromDevice (snd (_saveTasksToDevice l w))) = Resolved l.
Proof.
  intros Hls Hg Hs. unfold _saveTasksToDevice. rewrite Hls, Hs.
  split; [reflexivity |].
  unfold _loadTasksFromDevice. cbn [snd localStorage set_items getItem_throws items].
  rewrite Hg, lookup_insert_eq, stringify_truthy, parse_stringify. reflexivity.
Qed.

Lemma save_then_load_witness :
  let ls := mkStorage ∅ false (fun _ _ => false) in
  let w := initial (Some ls) in
  let l := [mkTask "task-1700000000000-4fzyo" "Buy milk" false;
            mkTask "task-1700000000001-k3x9q" "Buy eggs" true] in
  localStorage w = Some ls /\
  getItem_throws ls = false /\
  setItem_throws ls TASKS_STORAGE_KEY (JSON.stringify l) = false /\
  fst (_saveTasksToDevice l w) = Resolved tt /\
  fst (_loadTasksFromDevice (snd (_saveTasksToDevice l w))) = Resolved l.
Proof.
  cbv zeta. split; [reflexivity |]. split; [reflexivity |]. split; [reflexivity |].
  apply (save_then_load _ _ (mkStorage ∅ false (fun _ _ => false))); reflexivity.
Defined.

(** ** Load *)

Lemma load_never_writes (w : World) :
  tasks_subject (snd (_loadTasksFromDevice w)) = tasks_subject w /\
  localStorage (snd (_loadTasksFromDevice w)) = localStorage w /\
  (forall e, In e (events (snd (_loadTasksFromDevice w))) ->
             In e (events w) \/ exists msg, e = ConsoleWarn msg \/ e = ConsoleError msg) /\
  exists tasks, fst (_loadTasksFromDevice w) = Resolved tasks.
Proof.
  unfold _loadTasksFromDevice.
  destruct (localStorage w) as [ls|] eqn:Hls.
  - destruct (getItem_throws ls).
    + cbn. repeat split; eauto. intros e He. apply List.in_app_iff in He as [He | [<- | []]]; eauto.
    + destruct (items ls !! TASKS_STORAGE_KEY) as [s|]; [| cbn; repeat split; eauto].
      destruct (truthy s); [| cbn; repeat split; eauto].
      destruct (JSON.parse s); cbn; repeat split; eauto.
      intros e He. apply List.in_app_iff in He as [He | [<- | []]]; eauto.
  - cbn. repeat split; eauto. intros e He. apply List.in_app_iff in He as [He | [<- | []]]; eauto.
Qed.

Lemma load_fallback (w : World) :
  (localStorage w = None \/
   exists ls, localStorage w = Some ls /\
     (getItem_throws ls = true \/
      items ls !! TASKS_STORAGE_KEY = None \/
      exists text, items ls !! TASKS_STORAGE_KEY = Some text /\ JSON.well_formed text = false)) ->
  fst (_loadTasksFromDevice w) = Resolved [].
Proof.
  unfold _loadTasksFromDevice.
  intros [H | (ls & H & Hc)]; rewrite H; [reflexivity |].
  destruct (getItem_throws ls); [reflexivity |].
  destruct Hc as [Hc | [Hc | (text & Hc & Hp)]]; [discriminate Hc | |]; rewrite Hc; [reflexivity |].
  rewrite (parse_not_well_formed _ Hp). destruct (truthy text); reflexivity.
Qed.

(** C8: when there is no storage, when the read throws, when the storage
    key is absent, or when the stored record does not decode (it is not
    a JSON text, so that [JSON.parse] throws), [loadAllTasksFromDevice]
    resolves without an error and commits the empty list: the store
    holds the empty list, the empty list is broadcast last, the storage
    is what it was, and no [setItem] is performed. *)
Theorem loadAllTasksFromDevice_fallback (w : World) :
  (localStorage w = None \/
   exists ls, localStorage w = Some ls /\
     (getItem_throws ls = true \/
      items ls !! TASKS_STORAGE_KEY = None \/
      exists text, items ls !! TASKS_STORAGE_KEY = Some text /\ JSON.well_formed text = false)) ->
  let r := loadAllTasksFromDevice w in
  fst r = Resolved tt /\
  tasks_subject (snd r) = [] /\
  (exists before, events (snd r) = before ++ [Next []]) /\
  localStorage (snd r) = localStorage w /\
  (forall key value, In (SetItem key value) (events (snd r)) ->
                     In (SetItem key value) (events w)).
Proof.
  intros H r. subst r. unfold loadAllTasksFromDevice.
  pose proof (load_fallback w H) as Hf.
  destruct (load_never_writes w) as (_ & Hs & He & _).
  destruct (_loadTasksFromDevice w) as [o w1]. cbn [fst snd] in *. subst o.
  cbn [fst snd next tasks_subject events localStorage].
  split; [reflexivity |]. split; [reflexivity |].
  split; [eexists; reflexivity |]. split; [exact Hs |].
  intros key value Hin. apply List.in_app_iff in Hin as [Hin | [E | []]]; [| discriminate E].
  destruct (He _ Hin) as [Hw | (msg & [E | E])]; [exact Hw | discriminate E | discriminate E].
Qed.

Lemma loadAllTasksFromDevice_fallback_witness :
  let ls := mkStorage (<[TASKS_STORAGE_KEY := "[{"]> ∅) false (fun _ _ => false) in
  let w := mkWorld [mkTask "task-1700000000000-4fzyo" "Buy milk" false] (Some ls) [] in
  (exists text, items ls !! TASKS_STORAGE_KEY = Some text /\ JSON.well_formed text = false) /\
  fst (loadAllTasksFromDevice w) = Resolved tt /\
  tasks_subject (snd (loadAllTasksFromDevice w)) = [] /\
  localStorage (snd (loadAllTasksFromDevice w)) = localStorage w.
Proof.
  cbv zeta.
  assert (H : exists text,
             items (mkStorage (<[TASKS_STORAGE_KEY := "[{"]> ∅) false (fun _ _ => false))
               !! TASKS_STORAGE_KEY = Some text /\ JSON.well_formed text = false).
  { exists "[{". split; [apply lookup_insert_eq | reflexivity]. }
  split; [exact H |].
  destruct (loadAllTasksFromDevice_fallback
              (mkWorld [mkTask "task-1700000000000-4fzyo" "Buy milk" false]
                 (Some (mkStorage (<[TASKS_STORAGE_KEY := "[{"]> ∅) false (fun _ _ => false)))
                 []))
    as (Ho & Ht & _ & Hs & _).
  { right. eexists. split; [reflexivity |]. right. right. exact H. }
  auto.
Defined.

(** ** Commit before write *)

(** A call that changes the list commits the list it computes and runs
    the persistence step on it. *)
Lemma run_op_commits (op : Op) (w : World) :
  changes_list op w ->
  new_list op w <> tasks_subject w /\
  run_op op w = _saveTasksToDevice (new_list op w) (next (new_list op w) w).
Proof.
  destruct op as [now r text | taskId b | taskId]; cbn [changes_list new_list run_op];
    intros H.
  - split; [| exact (createNewTask_accepts _ _ _ _ H)].
    unfold getValue. intros E. apply (f_equal (@List.length Task)) in E.
    rewrite List.length_app in E. cbn [List.length] in E. lia.
  - pose proof (map_set_status_changes taskId b (getValue w) H) as Hne.
    split; [exact Hne | exact (updateTaskStatus_commits _ _ _ Hne)].
  - apply count_id_pos in H.
    pose proof (filter_length_split (fun task => str_eq (id task) taskId) (getValue w)) as S.
    fold (count_id taskId (getValue w)) in S.
    split.
    + unfold getValue in *. intros E. rewrite E in S. lia.
    + rewrite deleteTask_unfold. cbn zeta.
      destruct (Nat.eqb_spec (count_id taskId (getValue w)) 0) as [E | _]; [lia | reflexivity].
Qed.

Lemma set_status_cases (taskId : string) (b : bool) (l : list Task) :
  (exists t, In t l /\ id t = taskId /\ isComplete t <> b) \/
  (forall t, In t l -> id t = taskId -> isComplete t = b).
Proof.
  induction l as [|u l [(t & Ht & Hid & Hb) | IH]].
  - right. intros t [].
  - left. exists t. split; [right; exact Ht | auto].
  - destruct (str_eq (id u) taskId) eqn:E.
    + apply str_eq_true in E. destruct (Bool.bool_dec (isComplete u) b) as [Hb | Hb].
      * right. intros t [<- | Ht] Hid; [exact Hb | exact (IH t Ht Hid)].
      * left. exists u. split; [left; reflexivity | auto].
    + apply str_eq_false in E. right.
      intros t [<- | Ht] Hid; [contradiction | exact (IH t Ht Hid)].
Qed.

(** The calls told by [changes_list] are all the calls that change the
    list: any other call leaves the list of the store as it is. *)
Lemma changing_calls_in_scope (op : Op) (w : World) :
  tasks_subject (snd (run_op op w)) <> tasks_subject w -> changes_list op w.
Proof.
  destruct op as [now r text | taskId b | taskId]; cbn [changes_list run_op]; intros H.
  - intros E. apply H. rewrite (createNewTask_rejects_blank _ _ _ _ E). reflexivity.
  - destruct (set_status_cases taskId b (getValue w)) as [Hex | Hall]; [exact Hex |].
    exfalso. apply H.
    rewrite (updateTaskStatus_skips _ _ _ (map_set_status_id _ _ _ Hall)). reflexivity.
  - apply count_id_pos. rewrite deleteTask_unfold in H. cbn zeta in H.
    destruct (Nat.eqb_spec (count_id taskId (getValue w)) 0) as [E | E]; [| lia].
    exfalso. apply H. reflexivity.
Qed.

(** C9: in every Create / UpdateStatus / Delete call that changes the
    list (a Create with a title that is not blank, an UpdateStatus of an
    id carried by a task with the other status, a Delete of an id in the
    list), the list computed by the call differs from the current one
    and is committed to the store first; the persistence step comes
    next, on the same list: the events of the call are the broadcast of
    the list followed by the one event of its write.  When the write
    throws, the call is rejected to its caller, the storage is what it
    was, and the store holds the committed list: nothing is rolled
    back. *)
Theorem commit_precedes_write (op : Op) (w : World) :
  changes_list op w ->
  let r := run_op op w in
  let l := new_list op w in
  l <> tasks_subject w /\
  tasks_subject (snd r) = l /\
  exists e : Event,
    events (snd r) = events w ++ [Next l; e] /\
    (e = SetItem TASKS_STORAGE_KEY (JSON.stringify l) \/
     e = ConsoleError "Error saving tasks to localStorage:" \/
     e = ConsoleWarn "localStorage is not available. Tasks cannot be saved.") /\
    (forall ls,
        localStorage w = Some ls ->
        setItem_throws ls TASKS_STORAGE_KEY (JSON.stringify l) = true ->
        fst r = Rejected /\
        e = ConsoleError "Error saving tasks to localStorage:" /\
        localStorage (snd r) = localStorage w /\
        tasks_subject (snd r) = l) /\
    (forall ls,
        localStorage w = Some ls ->
        setItem_throws ls TASKS_STORAGE_KEY (JSON.stringify l) = false ->
        fst r = Resolved tt /\
        e = SetItem TASKS_STORAGE_KEY (JSON.stringify l) /\
        exists ls', localStorage (snd r) = Some ls' /\
                    items ls' !! TASKS_STORAGE_KEY = Some (JSON.stringify l)) /\
    (localStorage w = None ->
     fst r = Resolved tt /\
     e = ConsoleWarn "localStorage is not available. Tasks cannot be saved." /\
     localStorage (snd r) = None).
Proof.
  intros Hch r l. subst r l.
  destruct (run_op_commits op w Hch) as [Hne E]. rewrite E.
  set (l := new_list op w) in *.
  pose proof (save_after_next l w) as (Ht & Hp).
  split; [exact Hne |]. split; [exact Ht |].
  destruct (localStorage w) as [ls|] eqn:Hls.
  - destruct (setItem_throws ls TASKS_STORAGE_KEY (JSON.stringify l)) eqn:Hs;
      destruct Hp as (Ho & Hst & Hev); eexists;
      (split; [exact Hev |]); (split; [tauto |]);
      (split; [| split]); try (intros ls0 [= <-] Hs0); try discriminate; try congruence.
    + repeat split; auto.
    + repeat split; auto. eexists. split; [exact Hst |]. cbn. apply lookup_insert_eq.
  - destruct Hp as (Ho & Hst & Hev). eexists.
    split; [exact Hev |]. split; [tauto |].
    split; [intros ls0 [=] |]. split; [intros ls0 [=] |]. auto.
Qed.

Lemma commit_precedes_write_witness :
  let ls := mkStorage ∅ false (fun _ _ => true) in
  let w := snd (createNewTask 1700000000000 "0.4fzyo82mvyr" "Buy milk" (initial (Some ls))) in
  let op := Delete "task-1700000000000-4fzyo" in
  changes_list op w /\
  fst (run_op op w) = Rejected /\
  tasks_subject (snd (run_op op w)) = [] /\
  tasks_subject (snd (run_op op w)) <> tasks_subject w /\
  exists e, events (snd (run_op op w)) = events w ++ [Next []; e].
Proof.
  cbv zeta.
  set (w := snd (createNewTask 1700000000000 "0.4fzyo82mvyr" "Buy milk"
                   (initial (Some (mkStorage ∅ false (fun _ _ => true)))))).
  assert (H : changes_list (Delete "task-1700000000000-4fzyo") w) by (left; reflexivity).
  split; [exact H |].
  destruct (commit_precedes_write (Delete "task-1700000000000-4fzyo") w H)
    as (Hne & Ht & e & Hev & _ & Hthrow & _ & _).
  destruct (Hthrow (mkStorage ∅ false (fun _ _ => true)) eq_refl eq_refl) as (Ho & _ & _ & _).
  split; [exact Ho |]. split; [exact Ht |].
  split; [rewrite Ht; exact Hne |]. exists e. exact Hev.
Defined.

(* ===================================================================== *)
(** * Further properties of the service *)

(** ** Trimming *)

Lemma trimEnd_idem (s : string) : trimEnd (trimEnd s) = trimEnd s.
Proof.
  induction s as [|c s IH]; [reflexivity |].
  cbn [trimEnd]. destruct (trimEnd s) as [|d r] eqn:E.
  - destruct (is_white_space c) eqn:Ec; [reflexivity |].
    cbn [trimEnd]. rewrite Ec. reflexivity.
  - cbn [trimEnd] in *. rewrite IH. reflexivity.
Qed.

Lemma trimEnd_head (c : ascii) (s : string) :
  is_white_space c = false -> exists r, trimEnd (String c s) = String c r.
Proof.
  intros Hc. cbn [trimEnd]. destruct (trimEnd s); [rewrite Hc |]; eauto.
Qed.

Lemma trimStart_head (s : string) :
  trimStart s = EmptyString \/
  exists c r, trimStart s = String c r /\ is_white_space c = false.
Proof.
  induction s as [|c s IH]; [left; reflexivity |].
  cbn [trimStart]. destruct (is_white_space c) eqn:Ec; [exact IH | right; eauto].
Qed.

Lemma trim_idem (s : string) : trim (trim s) = trim s.
Proof.
  unfold trim. destruct (trimStart_head s) as [E | (c & r & E & Hc)]; rewrite E.
  - reflexivity.
  - destruct (trimEnd_head c r Hc) as (r' & Er). rewrite Er.
    cbn [trimStart]. rewrite Hc, <- Er. apply trimEnd_idem.
Qed.

Lemma trimStart_all_white_space (s : string) :
  all_white_space (trimStart s) = all_white_space s.
Proof.
  induction s as [|c s IH]; [reflexivity |].
  cbn [trimStart all_white_space]. destruct (is_white_space c) eqn:Ec.
  - exact IH.
  - cbn [all_white_space]. rewrite Ec. reflexivity.
Qed.

Lemma trimEnd_empty (s : string) :
  trimEnd s = EmptyString <-> all_white_space s = true.
Proof.
  induction s as [|c s IH]; [split; reflexivity |].
  cbn [trimEnd all_white_space].
  destruct (trimEnd s) as [|d r]; destruct (is_white_space c); cbn [andb].
  - split; intros _; [apply IH |]; reflexivity.
  - split; intros H; discriminate H.
  - split; intros H; [discriminate H |]. apply IH in H. discriminate H.
  - split; intros H; discriminate H.
Qed.

Lemma trim_empty (s : string) : trim s = EmptyString <-> all_white_space s = true.
Proof.
  unfold trim. rewrite trimEnd_empty, trimStart_all_white_space. reflexivity.
Qed.

Lemma blank_test (s : string) : str_eq (trim s) EmptyString = all_white_space s.
Proof.
  destruct (all_white_space s) eqn:E.
  - apply str_eq_true, trim_empty, E.
  - apply str_eq_false. intros H. apply trim_empty in H. congruence.
Qed.

(** X1: for a title of code units below 256, [createNewTask] leaves the
    list of the store as it is exactly when every code unit of the title
    is one that [trim] strips in that range, TAB, LF, VT, FF, CR, SP or
    NBSP (the empty title included); for any other such title the list
    is the old one with one task at its end, which bears the trimmed
    title. *)
Theorem createNewTask_grows_unless_blank
    (now : Z) (random36 text : string) (w : World) :
  tasks_subject (snd (createNewTask now random36 text w)) =
    if all_white_space text then tasks_subject w
    else tasks_subject w ++ [mkTask (newTaskId now random36) (trim text) false].
Proof. rewrite createNewTask_tasks, blank_test. reflexivity. Qed.

(** ** Titles *)

Lemma well_titled_set_status (taskId : string) (b : bool) (t : Task) :
  well_titled t -> well_titled (set_status taskId b t).
Proof.
  unfold well_titled, set_status. destruct (str_eq (id t) taskId); auto.
Qed.

Lemma updateTaskStatus_tasks (taskId : string) (b : bool) (w : World) :
  tasks_subject (snd (updateTaskStatus taskId b w)) =
    List.map (set_status taskId b) (tasks_subject w).
Proof.
  rewrite updateTaskStatus_unfold. cbn zeta.
  destruct (str_eq _ _) eqn:E; cbn [negb].
  - apply str_eq_true, stringify_inj in E. cbn [snd emit tasks_subject].
    exact E.
  - rewrite save_tasks_subject. reflexivity.
Qed.

Lemma run_op_keeps_well_titled (op : Op) (w : World) :
  List.Forall well_titled (tasks_subject w) ->
  List.Forall well_titled (tasks_subject (snd (run_op op w))).
Proof.
  intros H. destruct op as [now r text | taskId b | taskId]; cbn [run_op].
  - rewrite createNewTask_tasks.
    destruct (str_eq (trim text) EmptyString) eqn:E; [exact H |].
    apply List.Forall_app. split; [exact H |].
    constructor; [| constructor]. split; cbn [title].
    + apply str_eq_false, E.
    + apply trim_idem.
  - rewrite updateTaskStatus_tasks. apply List.Forall_map.
    eapply List.Forall_impl; [| exact H]. intros t. apply well_titled_set_status.
  - rewrite deleteTask_tasks. apply List.Forall_forall. intros t Ht.
    apply List.filter_In in Ht as [Ht _].
    exact (proj1 (List.Forall_forall _ _) H t Ht).
Qed.

(** X2: after any sequence of Create / UpdateStatus / Delete calls from
    the initial empty store, every task of the list has a title that is
    not empty and has no whitespace left to trim at either end. *)
Theorem titles_stay_trimmed (ops : list Op) (ls : option Storage) :
  List.Forall (fun t => title t <> EmptyString /\ trim (title t) = title t)
    (tasks_subject (run_ops ops (initial ls))).
Proof.
  change (List.Forall well_titled (tasks_subject (run_ops ops (initial ls)))).
  assert (G : forall w, List.Forall well_titled (tasks_subject w) ->
                        List.Forall well_titled (tasks_subject (run_ops ops w))).
  { induction ops as [|op ops IH]; intros w H; cbn [run_ops]; [exact H |].
    apply IH, run_op_keeps_well_titled, H. }
  apply G. constructor.
Qed.

(** ** Generated ids *)

(** X3: two ids generated by [createNewTask] differ as soon as the clock
    values differ or the five-unit suffixes taken from the random
    renderings differ (the suffixes holding no dash, as in the base-36
    rendering of a number). *)
Theorem generated_ids_differ (now1 now2 : Z) (r1 r2 : string) :
  dash_free (js_substring 2 7 r1) = true ->
  dash_free (js_substring 2 7 r2) = true ->
  now1 <> now2 \/ js_substring 2 7 r1 <> js_substring 2 7 r2 ->
  newTaskId now1 r1 <> newTaskId now2 r2.
Proof.
  intros H1 H2 Hd E.
  destruct (newTaskId_inj _ _ _ _ H1 H2 E) as [En Es].
  destruct Hd as [Hd | Hd]; contradiction.
Qed.

Lemma generated_ids_differ_witness :
  dash_free (js_substring 2 7 "0.4fzyo82mvyr") = true /\
  dash_free (js_substring 2 7 "0.4fzyo82mvyr") = true /\
  (1700000000000 <> 1700000000001 \/
   js_substring 2 7 "0.4fzyo82mvyr" <> js_substring 2 7 "0.4fzyo82mvyr")%Z /\
  newTaskId 1700000000000 "0.4fzyo82mvyr" <> newTaskId 1700000000001 "0.4fzyo82mvyr".
Proof.
  assert (Hd : (1700000000000 <> 1700000000001 \/
                js_substring 2 7 "0.4fzyo82mvyr" <> js_substring 2 7 "0.4fzyo82mvyr")%Z)
    by (left; discriminate).
  split; [reflexivity |]. split; [reflexivity |]. split; [exact Hd |].
  exact (generated_ids_differ 1700000000000 1700000000001 "0.4fzyo82mvyr" "0.4fzyo82mvyr"
           eq_refl eq_refl Hd).
Defined.

(** ** UpdateStatus and Delete, composed *)

Lemma set_status_twice (taskId : string) (b b' : bool) (t : Task) :
  set_status taskId b (set_status taskId b' t) = set_status taskId b t.
Proof.
  unfold set_status. destruct (str_eq (id t) taskId) eqn:E; cbn [id title]; rewrite E; reflexivity.
Qed.

Lemma map_set_status_twice (taskId : string) (b b' : bool) (l : list Task) :
  List.map (set_status taskId b) (List.map (set_status taskId b') l) =
  List.map (set_status taskId b) l.
Proof.
  rewrite List.map_map. apply List.map_ext. intros t. apply set_status_twice.
Qed.

(** X4: a second [updateTaskStatus] with the same id and value, right
    after the first, is always without effect: it resolves, commits
    nothing, writes nothing, and only emits the console warning. *)
Theorem updateTaskStatus_twice (taskId : string) (b : bool) (w : World) :
  let w1 := snd (updateTaskStatus taskId b w) in
  updateTaskStatus taskId b w1 =
    (Resolved tt,
     emit (ConsoleWarn ("Task with ID: " +:+ taskId +:+ " not found for updating status.")) w1).
Proof.
  cbv zeta. apply updateTaskStatus_skips. unfold getValue.
  rewrite updateTaskStatus_tasks. apply map_set_status_twice.
Qed.

(** X5: when the tasks with the given id have the status [b], setting
    the status to the opposite value and then back to [b] leaves the
    list of the store exactly as it was. *)
Theorem updateTaskStatus_there_and_back (taskId : string) (b : bool) (w : World) :
  (forall t, In t (tasks_subject w) -> id t = taskId -> isComplete t = b) ->
  tasks_subject
    (snd (updateTaskStatus taskId b (snd (updateTaskStatus taskId (negb b) w)))) =
  tasks_subject w.
Proof.
  intros H. rewrite !updateTaskStatus_tasks, map_set_status_twice.
  apply map_set_status_id, H.
Qed.

Lemma updateTaskStatus_there_and_back_witness :
  let w := snd (createNewTask 1700000000000 "0.4fzyo82mvyr" "Buy milk" (initial None)) in
  (forall t, In t (tasks_subject w) -> id t = "task-1700000000000-4fzyo" ->
             isComplete t = false) /\
  tasks_subject
    (snd (updateTaskStatus "task-1700000000000-4fzyo" false
            (snd (updateTaskStatus "task-1700000000000-4fzyo" (negb false) w)))) =
  tasks_subject w.
Proof.
  cbv zeta.
  assert (H : forall t,
             In t (tasks_subject
                     (snd (createNewTask 1700000000000 "0.4fzyo82mvyr" "Buy milk"
                             (initial None)))) ->
             id t = "task-1700000000000-4fzyo" -> isComplete t = false).
  { intros t [<- | []] _. reflexivity. }
  split; [exact H |].
  exact (updateTaskStatus_there_and_back "task-1700000000000-4fzyo" false _ H).
Defined.

(** X6: whatever the id and the value, found or not, [updateTaskStatus]
    changes neither the ids nor the titles of the list, nor their order
    or number. *)
Theorem updateTaskStatus_keeps_ids_and_titles (taskId : string) (b : bool) (w : World) :
  let l' := tasks_subject (snd (updateTaskStatus taskId b w)) in
  List.map id l' = List.map id (tasks_subject w) /\
  List.map title l' = List.map title (tasks_subject w) /\
  List.length l' = List.length (tasks_subject w).
Proof.
  cbv zeta. rewrite updateTaskStatus_tasks, !List.map_map, List.length_map.
  repeat split; apply List.map_ext; intros t; unfold set_status;
    destruct (str_eq (id t) taskId); reflexivity.
Qed.

(** X7: for every list and id, after [deleteTask] no task of the list
    has the id, the tasks with another id are all still there, and a
    second [deleteTask] with the same id has no effect but the console
    warning. *)
Theorem deleteTask_twice (taskId : string) (w : World) :
  let w1 := snd (deleteTask taskId w) in
  ~ In taskId (ids (tasks_subject w1)) /\
  (forall t, In t (tasks_subject w1) <-> In t (tasks_subject w) /\ id t <> taskId) /\
  deleteTask taskId w1 =
    (Resolved tt,
     emit (ConsoleWarn ("Task with ID: " +:+ taskId +:+ " not found for deletion.")) w1).
Proof.
  cbv zeta.
  assert (Hin : forall t, In t (tasks_subject (snd (deleteTask taskId w))) <->
                          In t (tasks_subject w) /\ id t <> taskId).
  { intros t. rewrite deleteTask_tasks, List.filter_In, negb_true_iff, str_eq_false.
    reflexivity. }
  assert (Hn : ~ In taskId (ids (tasks_subject (snd (deleteTask taskId w))))).
  { unfold ids. intros H. apply List.in_map_iff in H as (t & Hid & Ht).
    apply Hin in Ht as [_ Ht]. contradiction. }
  split; [exact Hn |]. split; [exact Hin |].
  rewrite deleteTask_unfold. cbn zeta.
  destruct (Nat.eqb_spec (count_id taskId (getValue (snd (deleteTask taskId w)))) 0)
    as [_ | Hc]; [reflexivity |].
  exfalso. apply Hn, count_id_pos. unfold getValue in Hc. lia.
Qed.

(** ** The store does not depend on the storage *)

Lemma run_op_tasks (op : Op) (w1 w2 : World) :
  tasks_subject w1 = tasks_subject w2 ->
  tasks_subject (snd (run_op op w1)) = tasks_subject (snd (run_op op w2)).
Proof.
  intros H. destruct op as [now r text | taskId b | taskId]; cbn [run_op].
  - rewrite !createNewTask_tasks, H. reflexivity.
  - rewrite !updateTaskStatus_tasks, H. reflexivity.
  - rewrite !deleteTask_tasks, H. reflexivity.
Qed.

(** X8: the list held by the store after a sequence of calls is the same
    whatever the storage is and does: absent, accepting or throwing on
    each write, the in-memory list evolves alike. *)
Theorem store_ignores_storage (ops : list Op) (w1 w2 : World) :
  tasks_subject w1 = tasks_subject w2 ->
  tasks_subject (run_ops ops w1) = tasks_subject (run_ops ops w2).
Proof.
  revert w1 w2. induction ops as [|op ops IH]; intros w1 w2 H; cbn [run_ops]; [exact H |].
  apply IH, run_op_tasks, H.
Qed.

Lemma store_ignores_storage_witness :
  let ops := [Create 1700000000000 "0.4fzyo82mvyr" "Buy milk";
              UpdateStatus "task-1700000000000-4fzyo" true] in
  let w1 := initial None in
  let w2 := initial (Some (mkStorage ∅ false (fun _ _ => true))) in
  tasks_subject w1 = tasks_subject w2 /\
  tasks_subject (run_ops ops w1) = tasks_subject (run_ops ops w2).
Proof.
  cbv zeta. split; [reflexivity |].
  exact (store_ignores_storage _ (initial None)
           (initial (Some (mkStorage ∅ false (fun _ _ => true)))) eq_refl).
Defined.

(** ** What a call does to the storage *)

(** Every call either only warns, or commits a list that differs from
    the current one and runs the persistence step on it. *)
Lemma run_op_warns_or_commits (op : Op) (w : World) :
  (exists msg, run_op op w = (Resolved tt, emit (ConsoleWarn msg) w)) \/
  (exists l, l <> tasks_subject w /\ run_op op w = _saveTasksToDevice l (next l w)).
Proof.
  destruct op as [now r text | taskId b | taskId]; cbn [run_op].
  - destruct (str_eq (trim text) EmptyString) eqn:E.
    + left. apply str_eq_true in E. rewrite (createNewTask_rejects_blank _ _ _ _ E). eauto.
    + right. apply str_eq_false in E. rewrite (createNewTask_accepts _ _ _ _ E).
      eexists. split; [| reflexivity]. unfold getValue. intros H.
      apply (f_equal (@List.length Task)) in H. rewrite List.length_app in H.
      cbn [List.length] in H. lia.
  - destruct (str_eq (JSON.stringify (getValue w))
                (JSON.stringify (List.map (set_status taskId b) (getValue w)))) eqn:E.
    + left. apply str_eq_true, stringify_inj in E.
      rewrite updateTaskStatus_skips by (symmetry; exact E). eauto.
    + right. apply str_eq_false in E.
      assert (Hne : List.map (set_status taskId b) (getValue w) <> getValue w)
        by (intros H; apply E; rewrite H; reflexivity).
      rewrite (updateTaskStatus_commits _ _ _ Hne). eauto.
  - rewrite deleteTask_unfold. cbn zeta.
    pose proof (filter_length_split (fun task => str_eq (id task) taskId) (getValue w)) as S.
    fold (count_id taskId (getValue w)) in S.
    destruct (Nat.eqb_spec (count_id taskId (getValue w)) 0) as [_ | Hc]; [eauto |].
    right. eexists. split; [| reflexivity]. unfold getValue in *. intros H.
    rewrite H in S. lia.
Qed.

Lemma save_storage (l : list Task) (w : World) (ls : Storage) :
  localStorage w = Some ls ->
  exists ls',
    localStorage (snd (_saveTasksToDevice l w)) = Some ls' /\
    (forall key, key <> TASKS_STORAGE_KEY -> items ls' !! key = items ls !! key) /\
    getItem_throws ls' = getItem_throws ls /\
    setItem_throws ls' = setItem_throws ls /\
    (setItem_throws ls TASKS_STORAGE_KEY (JSON.stringify l) = false ->
     items ls' !! TASKS_STORAGE_KEY = Some (JSON.stringify l)).
Proof.
  intros H. unfold _saveTasksToDevice. rewrite H.
  destruct (setItem_throws ls TASKS_STORAGE_KEY (JSON.stringify l)) eqn:E.
  - exists ls. cbn. repeat split; auto. discriminate.
  - eexists. cbn. split; [reflexivity |]. repeat split.
    + intros key Hk. apply lookup_insert_ne. congruence.
    + intros _. apply lookup_insert_eq.
Qed.

Lemma run_op_storage (op : Op) (w : World) (ls : Storage) :
  localStorage w = Some ls ->
  exists ls',
    localStorage (snd (run_op op w)) = Some ls' /\
    (forall key, key <> TASKS_STORAGE_KEY -> items ls' !! key = items ls !! key) /\
    getItem_throws ls' = getItem_throws ls /\
    setItem_throws ls' = setItem_throws ls.
Proof.
  intros H. destruct (run_op_warns_or_commits op w) as [(msg & E) | (l & _ & E)]; rewrite E.
  - exists ls. cbn. auto.
  - destruct (save_storage l (next l w) ls H) as (ls' & H1 & H2 & H3 & H4 & _). eauto.
Qed.

Lemma run_ops_storage (ops : list Op) (w : World) (ls : Storage) :
  localStorage w = Some ls ->
  exists ls',
    localStorage (run_ops ops w) = Some ls' /\
    (forall key, key <> TASKS_STORAGE_KEY -> items ls' !! key = items ls !! key) /\
    getItem_throws ls' = getItem_throws ls /\
    setItem_throws ls' = setItem_throws ls.
Proof.
  revert w ls. induction ops as [|op ops IH]; intros w ls H; cbn [run_ops]; [eauto |].
  destruct (run_op_storage op w ls H) as (ls1 & H1 & K1 & G1 & S1).
  destruct (IH _ _ H1) as (ls2 & H2 & K2 & G2 & S2).
  exists ls2. split; [exact H2 |]. repeat split; try congruence.
  intros key Hk. rewrite K2, K1 by exact Hk. reflexivity.
Qed.

(** X9: a Create / UpdateStatus / Delete call is rejected exactly when it
    has changed the list of the store and the storage threw on the write
    of the JSON text of the new list; in every other case, and always
    where there is no storage, it resolves. *)
Theorem run_op_rejected_iff (op : Op) (w : World) :
  let r := run_op op w in
  fst r = Rejected <->
  tasks_subject (snd r) <> tasks_subject w /\
  exists ls, localStorage w = Some ls /\
    setItem_throws ls TASKS_STORAGE_KEY (JSON.stringify (tasks_subject (snd r))) = true.
Proof.
  cbv zeta. destruct (run_op_warns_or_commits op w) as [(msg & E) | (l & Hl & E)]; rewrite E.
  - cbn. split; [discriminate | intros [H _]; now elim H].
  - destruct (save_after_next l w) as (Ht & Hp). rewrite Ht.
    destruct (localStorage w) as [ls|].
    + destruct (setItem_throws ls TASKS_STORAGE_KEY (JSON.stringify l)) eqn:Hs;
        destruct Hp as (Ho & _ & _); rewrite Ho.
      * split; [intros _ | reflexivity]. split; [exact Hl | eauto].
      * split; [discriminate |]. intros (_ & ls0 & [= <-] & H). congruence.
    + destruct Hp as (Ho & _ & _). rewrite Ho.
      split; [discriminate |]. intros (_ & ls0 & H & _). discriminate H.
Qed.

(** X10: a sequence of Create / UpdateStatus / Delete calls leaves every
    entry of the storage under another key than the storage key as it
    was: the service reads and writes one record only. *)
Theorem other_keys_untouched (ops : list Op) (w : World) (ls : Storage) :
  localStorage w = Some ls ->
  exists ls',
    localStorage (run_ops ops w) = Some ls' /\
    forall key, key <> TASKS_STORAGE_KEY -> items ls' !! key = items ls !! key.
Proof.
  intros H. destruct (run_ops_storage ops w ls H) as (ls' & H1 & H2 & _). eauto.
Qed.

Lemma other_keys_untouched_witness :
  let ls := mkStorage (<["theme" := "dark"]> ∅) false (fun _ _ => false) in
  let w := initial (Some ls) in
  let ops := [Create 1700000000000 "0.4fzyo82mvyr" "Buy milk";
              Delete "task-1700000000000-4fzyo"] in
  localStorage w = Some ls /\
  exists ls',
    localStorage (run_ops ops w) = Some ls' /\
    forall key, key <> TASKS_STORAGE_KEY -> items ls' !! key = items ls !! key.
Proof.
  cbv zeta. split; [reflexivity |].
  exact (other_keys_untouched _ (initial (Some (mkStorage (<["theme" := "dark"]> ∅) false
                                                 (fun _ _ => false)))) _ eq_refl).
Defined.

(** ** The stored record follows the store *)

Lemma run_op_in_sync (op : Op) (w : World) (ls : Storage) :
  localStorage w = Some ls ->
  accepts_writes ls ->
  in_sync w \/ tasks_subject (snd (run_op op w)) <> tasks_subject w ->
  in_sync (snd (run_op op w)).
Proof.
  intros H Ha Hs.
  destruct (run_op_warns_or_commits op w) as [(msg & E) | (l & _ & E)]; rewrite E in *.
  - destruct Hs as [Hs | Hs]; [exact Hs | now elim Hs].
  - destruct (save_storage l (next l w) ls H) as (ls' & H1 & _ & _ & _ & Hk).
    exists ls'. split; [exact H1 |]. rewrite save_tasks_subject. apply Hk, Ha.
Qed.

Lemma run_ops_in_sync (ops : list Op) (w : World) (ls : Storage) :
  localStorage w = Some ls ->
  accepts_writes ls ->
  in_sync w \/ tasks_subject (run_ops ops w) <> tasks_subject w ->
  in_sync (run_ops ops w).
Proof.
  revert w ls. induction ops as [|op ops IH]; intros w ls H Ha Hs; cbn [run_ops] in *.
  - destruct Hs as [Hs | Hs]; [exact Hs | now elim Hs].
  - destruct (run_op_storage op w ls H) as (ls1 & H1 & _ & _ & S1).
    assert (Ha1 : accepts_writes ls1) by (intros k v; rewrite S1; apply Ha).
    apply (IH _ ls1 H1 Ha1).
    destruct (run_op_warns_or_commits op w) as [(msg & E) | (l & Hl & E)].
    + rewrite E in *. cbn [snd emit tasks_subject] in *. exact Hs.
    + left. apply (run_op_in_sync op w ls H Ha). right.
      rewrite E, save_tasks_subject. exact Hl.
Qed.

(** X11: on a storage that accepts every write, once the record under
    the storage key holds the JSON text of the list of the store it does
    so after every further call; and a sequence of calls that has
    changed the list leaves the record holding the JSON text of the
    current list. *)
Theorem record_follows_store (ops : list Op) (w : World) (ls : Storage) :
  localStorage w = Some ls ->
  accepts_writes ls ->
  in_sync w \/ tasks_subject (run_ops ops w) <> tasks_subject w ->
  exists ls',
    localStorage (run_ops ops w) = Some ls' /\
    items ls' !! TASKS_STORAGE_KEY =
      Some (JSON.stringify (tasks_subject (run_ops ops w))).
Proof. intros H Ha Hs. exact (run_ops_in_sync ops w ls H Ha Hs). Qed.

Lemma record_follows_store_witness :
  let ls := mkStorage ∅ false (fun _ _ => false) in
  let w := initial (Some ls) in
  let ops := [Create 1700000000000 "0.4fzyo82mvyr" "Buy milk";
              UpdateStatus "task-0-zzzzz" true] in
  localStorage w = Some ls /\
  accepts_writes ls /\
  (in_sync w \/ tasks_subject (run_ops ops w) <> tasks_subject w) /\
  exists ls',
    localStorage (run_ops ops w) = Some ls' /\
    items ls' !! TASKS_STORAGE_KEY =
      Some (JSON.stringify (tasks_subject (run_ops ops w))).
Proof.
  cbv zeta.
  assert (Ha : accepts_writes (mkStorage ∅ false (fun _ _ => false)))
    by (intros k v; reflexivity).
  assert (Hs : in_sync (initial (Some (mkStorage ∅ false (fun _ _ => false)))) \/
               tasks_subject
                 (run_ops [Create 1700000000000 "0.4fzyo82mvyr" "Buy milk";
                           UpdateStatus "task-0-zzzzz" true]
                    (initial (Some (mkStorage ∅ false (fun _ _ => false))))) <>
               tasks_subject (initial (Some (mkStorage ∅ false (fun _ _ => false)))))
    by (right; discriminate).
  split; [reflexivity |]. split; [exact Ha |]. split; [exact Hs |].
  exact (record_follows_store _ (initial (Some (mkStorage ∅ false (fun _ _ => false)))) _
           eq_refl Ha Hs).
Defined.

(** ** Loading *)

Lemma parse_truthy (text : string) (l : list Task) :
  JSON.parse text = Some l -> truthy text = true.
Proof. destruct text; [discriminate | reflexivity]. Qed.

Lemma load_decoded (w : World) (ls : Storage) (text : string) (l : list Task) :
  localStorage w = Some ls ->
  getItem_throws ls = false ->
  items ls !! TASKS_STORAGE_KEY = Some text ->
  JSON.parse text = Some l ->
  loadAllTasksFromDevice w = (Resolved tt, next l w).
Proof.
  intros H Hg Hk Hp. unfold loadAllTasksFromDevice, _loadTasksFromDevice.
  rewrite H, Hg, Hk, (parse_truthy _ _ Hp), Hp. reflexivity.
Qed.

(** X12: when the storage can be read and the record under the storage
    key decodes to a list, [loadAllTasksFromDevice] resolves and commits
    that list in place of whatever the store held: one broadcast, no
    write, the storage as it was. *)
Theorem loadAllTasksFromDevice_commits_decoded
    (w : World) (ls : Storage) (text : string) (l : list Task) :
  localStorage w = Some ls ->
  getItem_throws ls = false ->
  items ls !! TASKS_STORAGE_KEY = Some text ->
  JSON.parse text = Some l ->
  let r := loadAllTasksFromDevice w in
  fst r = Resolved tt /\
  tasks_subject (snd r) = l /\
  events (snd r) = events w ++ [Next l] /\
  localStorage (snd r) = localStorage w.
Proof.
  intros H Hg Hk Hp. cbv zeta. rewrite (load_decoded w ls text l H Hg Hk Hp).
  cbn. auto.
Qed.

Lemma loadAllTasksFromDevice_commits_decoded_witness :
  let text := JSON.stringify [mkTask "task-1700000000000-4fzyo" "Buy milk" true] in
  let ls := mkStorage (<[TASKS_STORAGE_KEY := text]> ∅) false (fun _ _ => false) in
  let w := mkWorld [mkTask "task-0-zzzzz" "unsaved" false] (Some ls) [] in
  items ls !! TASKS_STORAGE_KEY = Some text /\
  JSON.parse text = Some [mkTask "task-1700000000000-4fzyo" "Buy milk" true] /\
  tasks_subject (snd (loadAllTasksFromDevice w)) =
    [mkTask "task-1700000000000-4fzyo" "Buy milk" true].
Proof.
  cbv zeta.
  assert (Hk : items (mkStorage
                        (<[TASKS_STORAGE_KEY :=
                             JSON.stringify [mkTask "task-1700000000000-4fzyo" "Buy milk" true]]> ∅)
                        false (fun _ _ => false)) !! TASKS_STORAGE_KEY =
               Some (JSON.stringify [mkTask "task-1700000000000-4fzyo" "Buy milk" true]))
    by apply lookup_insert_eq.
  assert (Hp : JSON.parse (JSON.stringify [mkTask "task-1700000000000-4fzyo" "Buy milk" true]) =
               Some [mkTask "task-1700000000000-4fzyo" "Buy milk" true])
    by reflexivity.
  split; [exact Hk |]. split; [exact Hp |].
  exact (proj1 (proj2 (loadAllTasksFromDevice_commits_decoded
                         (mkWorld [mkTask "task-0-zzzzz" "unsaved" false]
                            (Some (mkStorage
                                     (<[TASKS_STORAGE_KEY :=
                                          JSON.stringify
                                            [mkTask "task-1700000000000-4fzyo" "Buy milk" true]]> ∅)
                                     false (fun _ _ => false)))
                            [])
                         _ _ _ eq_refl eq_refl Hk Hp))).
Defined.

(** X13: whatever the world, [loadAllTasksFromDevice] resolves, leaves
    the storage as it was, performs no [setItem], and ends with the
    broadcast of the list that the store then holds. *)
Theorem loadAllTasksFromDevice_never_fails_never_writes (w : World) :
  let r := loadAllTasksFromDevice w in
  fst r = Resolved tt /\
  localStorage (snd r) = localStorage w /\
  (exists before, events (snd r) = before ++ [Next (tasks_subject (snd r))]) /\
  (forall key value, In (SetItem key value) (events (snd r)) ->
                     In (SetItem key value) (events w)).
Proof.
  cbv zeta. unfold loadAllTasksFromDevice.
  destruct (load_never_writes w) as (_ & Hs & He & (l & Hl)).
  destruct (_loadTasksFromDevice w) as [o w1]. cbn [fst snd] in *. subst o.
  cbn [fst snd next tasks_subject events localStorage].
  split; [reflexivity |]. split; [exact Hs |]. split; [eexists; reflexivity |].
  intros key value Hin. apply List.in_app_iff in Hin as [Hin | [E | []]]; [| discriminate E].
  destruct (He _ Hin) as [Hw | (msg & [E | E])]; [exact Hw | discriminate E | discriminate E].
Qed.

(** X14: a session that changed the list on a storage that accepts every
    write and can be read is restored by the next session: a fresh
    service on the storage it left loads exactly the list that the store
    held. *)
Theorem reload_restores_list (ops : list Op) (w : World) (ls : Storage) :
  localStorage w = Some ls ->
  accepts_writes ls ->
  getItem_throws ls = false ->
  tasks_subject (run_ops ops w) <> tasks_subject w ->
  tasks_subject (snd (loadAllTasksFromDevice (initial (localStorage (run_ops ops w))))) =
  tasks_subject (run_ops ops w).
Proof.
  intros H Ha Hg Hc.
  destruct (run_ops_in_sync ops w ls H Ha (or_intror Hc)) as (ls' & H1 & Hk).
  destruct (run_ops_storage ops w ls H) as (ls2 & H2 & _ & G2 & _).
  rewrite H1 in H2. injection H2 as <-.
  rewrite H1.
  rewrite (load_decoded (initial (Some ls')) ls' _ (tasks_subject (run_ops ops w))
             eq_refl (eq_trans G2 Hg) Hk (parse_stringify _)).
  reflexivity.
Qed.

Lemma reload_restores_list_witness :
  let ls := mkStorage ∅ false (fun _ _ => false) in
  let w := initial (Some ls) in
  let ops := [Create 1700000000000 "0.4fzyo82mvyr" "Buy milk";
              Create 1700000000001 "0.k3x9q0a7c1" "Buy eggs";
              UpdateStatus "task-1700000000000-4fzyo" true] in
  tasks_subject (run_ops ops w) <> tasks_subject w /\
  tasks_subject (snd (loadAllTasksFromDevice (initial (localStorage (run_ops ops w))))) =
  tasks_subject (run_ops ops w).
Proof.
  cbv zeta.
  assert (Hc : tasks_subject
                 (run_ops [Create 1700000000000 "0.4fzyo82mvyr" "Buy milk";
                           Create 1700000000001 "0.k3x9q0a7c1" "Buy eggs";
                           UpdateStatus "task-1700000000000-4fzyo" true]
                    (initial (Some (mkStorage ∅ false (fun _ _ => false))))) <>
               tasks_subject (initial (Some (mkStorage ∅ false (fun _ _ => false)))))
    by discriminate.
  split; [exact Hc |].
  exact (reload_restores_list _ (initial (Some (mkStorage ∅ false (fun _ _ => false))))
           (mkStorage ∅ false (fun _ _ => false)) eq_refl (fun _ _ => eq_refl) eq_refl Hc).
Defined.

(** ** Every write follows its commit *)

Lemma snoc_split (evs before after : list Event) (x y : Event) :
  evs ++ [x] = before ++ y :: after ->
  (after = [] /\ evs = before /\ x = y) \/
  (exists after', after = after' ++ [x] /\ evs = before ++ y :: after').
Proof.
  intros H. destruct (List.exists_last (l := y :: after)) as (m & z & Hm); [discriminate |].
  rewrite Hm, List.app_assoc in H. apply List.app_inj_tail in H as [H ->].
  destruct after as [|a after].
  - left. destruct m as [|? [|? ?]]; cbn in Hm; try discriminate Hm.
    injection Hm as ->. rewrite List.app_nil_r in H. auto.
  - right. destruct m as [|y' m']; [discriminate Hm |].
    cbn [app] in Hm. injection Hm as <- Hm. exists m'. auto.
Qed.

Lemma writes_follow_commits_snoc (evs : list Event) (x : Event) :
  writes_follow_commits evs ->
  (forall key value, x <> SetItem key value) ->
  writes_follow_commits (evs ++ [x]).
Proof.
  intros H Hx before key value after E.
  apply snoc_split in E as [(_ & _ & E) | (after' & _ & E)].
  - exfalso. exact (Hx _ _ E).
  - exact (H _ _ _ _ E).
Qed.

Lemma writes_follow_commits_write (evs : list Event) (l : list Task) :
  writes_follow_commits evs ->
  writes_follow_commits (evs ++ [Next l; SetItem TASKS_STORAGE_KEY (JSON.stringify l)]).
Proof.
  intros H before key value after E.
  change (evs ++ [Next l; SetItem TASKS_STORAGE_KEY (JSON.stringify l)])
    with (evs ++ [Next l] ++ [SetItem TASKS_STORAGE_KEY (JSON.stringify l)]) in E.
  rewrite List.app_assoc in E.
  apply snoc_split in E as [(_ & <- & [= <- <-]) | (after' & _ & E)].
  - split; [reflexivity |]. eauto.
  - apply snoc_split in E as [(_ & _ & E) | (after'' & _ & E)]; [discriminate E |].
    exact (H _ _ _ _ E).
Qed.

Lemma save_after_next_events (l : list Task) (w : World) :
  events (snd (_saveTasksToDevice l (next l w))) =
    events w ++ [Next l; SetItem TASKS_STORAGE_KEY (JSON.stringify l)] \/
  exists x, (forall key value, x <> SetItem key value) /\
            events (snd (_saveTasksToDevice l (next l w))) = (events w ++ [Next l]) ++ [x].
Proof.
  destruct (save_after_next l w) as (_ & Hp).
  destruct (localStorage w) as [ls|].
  - destruct (setItem_throws ls TASKS_STORAGE_KEY (JSON.stringify l));
      destruct Hp as (_ & _ & He); rewrite He.
    + right. eexists. split; [| rewrite <- List.app_assoc; reflexivity]. discriminate.
    + left. reflexivity.
  - destruct Hp as (_ & _ & He). rewrite He.
    right. eexists. split; [| rewrite <- List.app_assoc; reflexivity]. discriminate.
Qed.

Lemma run_op_writes_follow_commits (op : Op) (w : World) :
  writes_follow_commits (events w) ->
  writes_follow_commits (events (snd (run_op op w))).
Proof.
  intros H. destruct (run_op_warns_or_commits op w) as [(msg & E) | (l & _ & E)]; rewrite E.
  - cbn [snd emit events]. apply writes_follow_commits_snoc; [exact H | discriminate].
  - destruct (save_after_next_events l w) as [He | (x & Hx & He)]; rewrite He.
    + apply writes_follow_commits_write, H.
    + apply writes_follow_commits_snoc; [| exact Hx].
      apply writes_follow_commits_snoc; [exact H | discriminate].
Qed.

(** X15: in the trace of any sequence of Create / UpdateStatus / Delete
    calls from a fresh service, every [setItem] is a write under the
    storage key, comes right after a broadcast, and writes the JSON text
    of the very list that was broadcast: nothing is stored that was not
    committed first. *)
Theorem writes_always_follow_commits (ops : list Op) (ls : option Storage) :
  forall before key value after,
    events (run_ops ops (initial ls)) = before ++ SetItem key value :: after ->
    key = TASKS_STORAGE_KEY /\
    exists before' l, before = before' ++ [Next l] /\ value = JSON.stringify l.
Proof.
  change (writes_follow_commits (events (run_ops ops (initial ls)))).
  assert (G : forall w, writes_follow_commits (events w) ->
                        writes_follow_commits (events (run_ops ops w))).
  { induction ops as [|op ops IH]; intros w H; cbn [run_ops]; [exact H |].
    apply IH, run_op_writes_follow_commits, H. }
  apply G. intros before key value after E. destruct before; discriminate E.
Qed.

Lemma writes_always_follow_commits_witness :
  let ops := [Create 1700000000000 "0.4fzyo82mvyr" "Buy milk"] in
  let ls := Some (mkStorage ∅ false (fun _ _ => false)) in
  let l := [mkTask "task-1700000000000-4fzyo" "Buy milk" false] in
  events (run_ops ops (initial ls)) =
    [Next l] ++ SetItem TASKS_STORAGE_KEY (JSON.stringify l) :: [] /\
  (TASKS_STORAGE_KEY = TASKS_STORAGE_KEY /\
   exists before' l', [Next l] = before' ++ [Next l'] /\ JSON.stringify l = JSON.stringify l').
Proof.
  cbv zeta.
  assert (E : events (run_ops [Create 1700000000000 "0.4fzyo82mvyr" "Buy milk"]
                        (initial (Some (mkStorage ∅ false (fun _ _ => false))))) =
              [Next [mkTask "task-1700000000000-4fzyo" "Buy milk" false]] ++
              SetItem TASKS_STORAGE_KEY
                (JSON.stringify [mkTask "task-1700000000000-4fzyo" "Buy milk" false]) :: [])
    by reflexivity.
  split; [exact E |].
  exact (writes_always_follow_commits _ _ _ _ _ _ E).
Defined.

(* ===================================================================== *)
(** * Properties of the page handlers *)

Lemma page_guard (s : string) : negb (truthy (trim s)) = all_white_space s.
Proof. unfold truthy. rewrite negb_involutive. apply blank_test. Qed.

Lemma createNewTask_proper (now : Z) (random36 text : string) (w : World) :
  all_white_space text = false ->
  createNewTask now random36 text w =
    let l := tasks_subject w ++ [mkTask (newTaskId now random36) (trim text) false] in
    _saveTasksToDevice l (next l w).
Proof.
  intros H. apply createNewTask_accepts. intros E. apply trim_empty in E. congruence.
Qed.

(** X16: [handleAddTask] calls the service only with a title that the
    service accepts.  On an input of whitespace only it leaves the store,
    the storage and the trace untouched and shows the toast that the
    title cannot be empty; on any other input the task is appended to
    the list of the store.  The warning of the service about an empty
    title is therefore never emitted through the page. *)
Theorem handleAddTask_guards_service (now : Z) (random36 : string) (p : Page) (w : World) :
  let r := handleAddTask now random36 p w in
  (if all_white_space (newTaskTitle p)
   then r = (toast (mkToast "Cannot add task" "Task title cannot be empty." Destructive) p, w)
   else tasks_subject (snd r) =
          tasks_subject w ++
          [mkTask (newTaskId now random36) (trim (newTaskTitle p)) false]) /\
  (In (ConsoleWarn "Cannot create task with empty title.") (events (snd r)) ->
   In (ConsoleWarn "Cannot create task with empty title.") (events w)).
Proof.
  cbv zeta. unfold handleAddTask. rewrite page_guard.
  destruct (all_white_space (newTaskTitle p)) eqn:Hb; [split; [reflexivity | auto] |].
  rewrite (createNewTask_proper _ _ _ _ Hb). cbn zeta.
  set (l := tasks_subject w ++ _).
  destruct (save_after_next l w) as (Ht & Hp).
  destruct (_saveTasksToDevice l (next l w)) as [[[]|] w1] eqn:E; cbn [fst snd] in *.
  - split; [exact Ht |]. intros Hin.
    destruct (localStorage w) as [ls|]; [destruct (setItem_throws ls _ _) |];
      destruct Hp as (_ & _ & He); rewrite He in Hin;
      apply List.in_app_iff in Hin as [Hin | [H | [H | []]]];
      solve [exact Hin | discriminate H].
  - split; [exact Ht |]. intros Hin. cbn [emit events] in Hin.
    apply List.in_app_iff in Hin as [Hin | [H | []]]; [| discriminate H].
    destruct (localStorage w) as [ls|]; [destruct (setItem_throws ls _ _) |];
      destruct Hp as (_ & _ & He); rewrite He in Hin;
      apply List.in_app_iff in Hin as [Hin | [H | [H | []]]];
      solve [exact Hin | discriminate H].
Qed.

Lemma handleAddTask_throwing
    (now : Z) (random36 : string) (p : Page) (w : World) (ls : Storage) :
  all_white_space (newTaskTitle p) = false ->
  localStorage w = Some ls ->
  setItem_throws ls TASKS_STORAGE_KEY
    (JSON.stringify
       (tasks_subject w ++
        [mkTask (newTaskId now random36) (trim (newTaskTitle p)) false])) = true ->
  let r := handleAddTask now random36 p w in
  tasks_subject (snd r) =
    tasks_subject w ++ [mkTask (newTaskId now random36) (trim (newTaskTitle p)) false] /\
  localStorage (snd r) = localStorage w /\
  newTaskTitle (fst r) = newTaskTitle p /\
  toasts (fst r) =
    toasts p ++ [mkToast "Error" "Could not add the task. Please try again." Destructive].
Proof.
  intros Hb Hls Hs. cbv zeta. unfold handleAddTask. rewrite page_guard, Hb.
  rewrite (createNewTask_proper _ _ _ _ Hb). cbn zeta.
  unfold _saveTasksToDevice. cbn [next localStorage]. rewrite Hls, Hs.
  cbn. rewrite Hls. auto.
Qed.

(** X17: when the title is proper but the storage throws on the write,
    [handleAddTask] shows the error toast and keeps the input, although
    the task has been appended to the list of the store; the storage is
    what it was. *)
Theorem handleAddTask_failed_save
    (now : Z) (random36 : string) (p : Page) (w : World) (ls : Storage) :
  all_white_space (newTaskTitle p) = false ->
  localStorage w = Some ls ->
  setItem_throws ls TASKS_STORAGE_KEY
    (JSON.stringify
       (tasks_subject w ++
        [mkTask (newTaskId now random36) (trim (newTaskTitle p)) false])) = true ->
  let r := handleAddTask now random36 p w in
  tasks_subject (snd r) =
    tasks_subject w ++ [mkTask (newTaskId now random36) (trim (newTaskTitle p)) false] /\
  localStorage (snd r) = localStorage w /\
  newTaskTitle (fst r) = newTaskTitle p /\
  toasts (fst r) =
    toasts p ++ [mkToast "Error" "Could not add the task. Please try again." Destructive].
Proof. apply handleAddTask_throwing. Qed.

Lemma handleAddTask_failed_save_witness :
  let ls := mkStorage ∅ false (fun _ _ => true) in
  let w := initial (Some ls) in
  let p := mkPage " Buy milk" false [] in
  all_white_space (newTaskTitle p) = false /\
  let r := handleAddTask 1700000000000 "0.4fzyo82mvyr" p w in
  tasks_subject (snd r) = [mkTask "task-1700000000000-4fzyo" "Buy milk" false] /\
  newTaskTitle (fst r) = " Buy milk" /\
  toasts (fst r) = [mkToast "Error" "Could not add the task. Please try again." Destructive].
Proof.
  cbv zeta. split; [reflexivity |].
  destruct (handleAddTask_failed_save 1700000000000 "0.4fzyo82mvyr"
              (mkPage " Buy milk" false [])
              (initial (Some (mkStorage ∅ false (fun _ _ => true))))
              (mkStorage ∅ false (fun _ _ => true)) eq_refl eq_refl eq_refl)
    as (Ht & _ & Hn & Hto).
  split; [exact Ht |]. split; [exact Hn | exact Hto].
Defined.

(** X18: on a storage that throws on every write, pressing Add again
    after the error (the input is still there) appends the task a second
    time: the list of the store ends with two tasks of the same title. *)
Theorem handleAddTask_retry_duplicates
    (now1 now2 : Z) (r1 r2 : string) (p : Page) (w : World) (ls : Storage) :
  all_white_space (newTaskTitle p) = false ->
  localStorage w = Some ls ->
  (forall key value, setItem_throws ls key value = true) ->
  let first := handleAddTask now1 r1 p w in
  let second := handleAddTask now2 r2 (fst first) (snd first) in
  tasks_subject (snd second) =
    tasks_subject w ++
    [mkTask (newTaskId now1 r1) (trim (newTaskTitle p)) false;
     mkTask (newTaskId now2 r2) (trim (newTaskTitle p)) false].
Proof.
  intros Hb Hls Hs. cbv zeta.
  destruct (handleAddTask_throwing now1 r1 p w ls Hb Hls (Hs _ _)) as (Ht & Hl & Hn & _).
  set (f := handleAddTask now1 r1 p w) in *.
  assert (Hb1 : all_white_space (newTaskTitle (fst f)) = false) by (rewrite Hn; exact Hb).
  assert (Hls1 : localStorage (snd f) = Some ls) by (rewrite Hl; exact Hls).
  destruct (handleAddTask_throwing now2 r2 (fst f) (snd f) ls Hb1 Hls1 (Hs _ _))
    as (Ht2 & _).
  rewrite Ht2, Ht, Hn, <- List.app_assoc. reflexivity.
Qed.

Lemma handleAddTask_retry_duplicates_witness :
  let ls := mkStorage ∅ false (fun _ _ => true) in
  let w := initial (Some ls) in
  let p := mkPage "Buy milk" false [] in
  all_white_space (newTaskTitle p) = false /\
  let first := handleAddTask 1700000000000 "0.4fzyo82mvyr" p w in
  let second := handleAddTask 1700000005000 "0.k3x9q0a7c1" (fst first) (snd first) in
  tasks_subject (snd second) =
    [mkTask "task-1700000000000-4fzyo" "Buy milk" false;
     mkTask "task-1700000005000-k3x9q" "Buy milk" false].
Proof.
  cbv zeta. split; [reflexivity |].
  exact (handleAddTask_retry_duplicates 1700000000000 1700000005000
           "0.4fzyo82mvyr" "0.k3x9q0a7c1" (mkPage "Buy milk" false [])
           (initial (Some (mkStorage ∅ false (fun _ _ => true))))
           (mkStorage ∅ false (fun _ _ => true)) eq_refl eq_refl (fun _ _ => eq_refl)).
Defined.

(** X19: a stale toggle.  When the list the handler closed over still
    shows a task with the given id but no task of the store has that id
    any more, [handleToggleTaskComplete] changes neither the list nor the
    storage, and yet shows the toast of a successful update, quoting the
    title of the task it closed over. *)
Theorem handleToggleTaskComplete_stale_id
    (tasks : list Task) (t : Task) (taskId : string) (currentStatus : bool)
    (p : Page) (w : World) :
  List.find (fun u => str_eq (id u) taskId) tasks = Some t ->
  ~ In taskId (ids (tasks_subject w)) ->
  let r := handleToggleTaskComplete tasks taskId currentStatus p w in
  tasks_subject (snd r) = tasks_subject w /\
  localStorage (snd r) = localStorage w /\
  toasts (fst r) =
    toasts p ++
    [mkToast (if currentStatus then "Task Marked Incomplete" else "Task Completed")
       (in_quotes (title t) +:+ " status updated.") DefaultVariant].
Proof.
  intros Hf Hn. cbv zeta. unfold handleToggleTaskComplete.
  rewrite updateTaskStatus_skips.
  - rewrite Hf. cbn. destruct currentStatus; auto.
  - apply map_set_status_id. intros u Hu Hid. exfalso. apply Hn.
    unfold ids. apply List.in_map_iff. eauto.
Qed.

Lemma handleToggleTaskComplete_stale_id_witness :
  let shown := tasks_subject
                 (snd (createNewTask 1700000000000 "0.4fzyo82mvyr" "Buy milk" (initial None))) in
  let w := snd (deleteTask "task-1700000000000-4fzyo"
                  (snd (createNewTask 1700000000000 "0.4fzyo82mvyr" "Buy milk"
                          (initial None)))) in
  let p := mkPage EmptyString false [] in
  List.find (fun u => str_eq (id u) "task-1700000000000-4fzyo") shown =
    Some (mkTask "task-1700000000000-4fzyo" "Buy milk" false) /\
  ~ In "task-1700000000000-4fzyo" (ids (tasks_subject w)) /\
  let r := handleToggleTaskComplete shown "task-1700000000000-4fzyo" false p w in
  tasks_subject (snd r) = tasks_subject w /\
  toasts (fst r) =
    [mkToast "Task Completed" (in_quotes "Buy milk" +:+ " status updated.") DefaultVariant].
Proof.
  cbv zeta.
  set (w0 := snd (createNewTask 1700000000000 "0.4fzyo82mvyr" "Buy milk" (initial None))).
  set (w := snd (deleteTask "task-1700000000000-4fzyo" w0)).
  assert (Hf : List.find (fun u => str_eq (id u) "task-1700000000000-4fzyo")
                 (tasks_subject w0) =
               Some (mkTask "task-1700000000000-4fzyo" "Buy milk" false)) by reflexivity.
  assert (Hn : ~ In "task-1700000000000-4fzyo" (ids (tasks_subject w))) by (intros []).
  split; [exact Hf |]. split; [exact Hn |].
  destruct (handleToggleTaskComplete_stale_id (tasks_subject w0) _
              "task-1700000000000-4fzyo" false (mkPage EmptyString false []) w Hf Hn)
    as (Ht & _ & Hto).
  split; [exact Ht | exact Hto].
Defined.

(** X20: when no task of the store has the given id, [handleDeleteTask]
    changes neither the list nor the storage, and yet shows the toast
    that the task has been removed. *)
Theorem handleDeleteTask_unknown_id (taskId taskTitle : string) (p : Page) (w : World) :
  ~ In taskId (ids (tasks_subject w)) ->
  let r := handleDeleteTask taskId taskTitle p w in
  tasks_subject (snd r) = tasks_subject w /\
  localStorage (snd r) = localStorage w /\
  toasts (fst r) =
    toasts p ++
    [mkToast "Task Deleted" (in_quotes taskTitle +:+ " has been removed from your list.")
       DefaultVariant].
Proof.
  intros Hn. cbv zeta. unfold handleDeleteTask. rewrite deleteTask_unfold. cbn zeta.
  destruct (Nat.eqb_spec (count_id taskId (getValue w)) 0) as [_ | Hc].
  - cbn. auto.
  - exfalso. apply Hn, count_id_pos. unfold getValue in Hc. lia.
Qed.

Lemma handleDeleteTask_unknown_id_witness :
  let w := snd (createNewTask 1700000000000 "0.4fzyo82mvyr" "Buy milk" (initial None)) in
  let p := mkPage EmptyString false [] in
  ~ In "task-0-zzzzz" (ids (tasks_subject w)) /\
  let r := handleDeleteTask "task-0-zzzzz" "Buy eggs" p w in
  tasks_subject (snd r) = tasks_subject w /\
  toasts (fst r) =
    [mkToast "Task Deleted" (in_quotes "Buy eggs" +:+ " has been removed from your list.")
       DefaultVariant].
Proof.
  cbv zeta.
  assert (Hn : ~ In "task-0-zzzzz"
                 (ids (tasks_subject
                         (snd (createNewTask 1700000000000 "0.4fzyo82mvyr" "Buy milk"
                                 (initial None))))))
    by (intros [E | []]; discriminate E).
  split; [exact Hn |].
  destruct (handleDeleteTask_unknown_id "task-0-zzzzz" "Buy eggs"
              (mkPage EmptyString false []) _ Hn) as (Ht & _ & Hto).
  split; [exact Ht | exact Hto].
Defined.

(** X21: whatever the storage holds or does, [initializeTasks] ends with
    [isLoading] false: the page never stays on its loading message; the
    other state of the page is untouched and the world is the one the
    load leaves. *)
Theorem initializeTasks_ends_loading (p : Page) (w : World) :
  let r := initializeTasks p w in
  isLoading (fst r) = false /\
  newTaskTitle (fst r) = newTaskTitle p /\
  toasts (fst r) = toasts p /\
  snd r = snd (loadAllTasksFromDevice w).
Proof.
  cbv zeta. unfold initializeTasks, loadAllTasksFromDevice.
  destruct (load_never_writes w) as (_ & _ & _ & (l & Hl)).
  destruct (_loadTasksFromDevice w) as [o w1]. cbn [fst] in Hl. subst o.
  cbn. auto.
Qed.

(** ** The pending count of the footer *)

Lemma pendingCount_app (l1 l2 : list Task) :
  pendingCount (l1 ++ l2) = pendingCount l1 + pendingCount l2.
Proof. unfold pendingCount. rewrite List.filter_app, List.length_app. reflexivity. Qed.

Lemma pendingCount_set_status (taskId : string) (b : bool) (l : list Task) :
  if b then pendingCount (List.map (set_status taskId b) l) <= pendingCount l
  else pendingCount l <= pendingCount (List.map (set_status taskId b) l).
Proof.
  unfold pendingCount.
  assert (Hs : forall t, isComplete (set_status taskId b t) =
                         if str_eq (id t) taskId then b else isComplete t).
  { intros t. unfold set_status. destruct (str_eq (id t) taskId); reflexivity. }
  destruct b; (induction l as [|t l IH]; [cbn; lia |]);
    cbn [List.map List.filter]; rewrite Hs;
    destruct (str_eq (id t) taskId); destruct (isComplete t);
    cbn [negb List.length]; lia.
Qed.

Lemma pendingCount_filter (q : Task -> bool) (l : list Task) :
  pendingCount (List.filter q l) <= pendingCount l.
Proof.
  unfold pendingCount. induction l as [|t l IH]; [cbn; lia |].
  cbn [List.filter]. destruct (q t); cbn [List.filter];
    destruct (negb (isComplete t)); cbn [List.length]; lia.
Qed.

(** X22: how each call moves the number of pending tasks that the footer
    shows: a Create adds one unless the title is only whitespace; an
    UpdateStatus to complete never raises it and one to incomplete never
    lowers it; a Delete never raises it. *)
Theorem pendingCount_step (op : Op) (w : World) :
  let before := pendingCount (tasks_subject w) in
  let after := pendingCount (tasks_subject (snd (run_op op w))) in
  match op with
  | Create _ _ text => after = if all_white_space text then before else S before
  | UpdateStatus _ true => after <= before
  | UpdateStatus _ false => before <= after
  | Delete _ => after <= before
  end.
Proof.
  cbv zeta. destruct op as [now r text | taskId b | taskId]; cbn [run_op].
  - rewrite createNewTask_tasks, blank_test.
    destruct (all_white_space text); [reflexivity |].
    rewrite pendingCount_app. cbn. lia.
  - rewrite updateTaskStatus_tasks.
    pose proof (pendingCount_set_status taskId b (tasks_subject w)) as H.
    destruct b; exact H.
  - rewrite deleteTask_tasks. apply pendingCount_filter.
Qed.
